(** * File logging and its IPC bridge

    A shallow embedding of [vs/platform/log/common/fileLog.ts] (the rotating
    file logger) and of the log IPC module (the channel client, the remote
    proxy logger and the follower log service), followed by the properties
    established about them.

    Conventions of the embedding.
    - A JavaScript string is a [string]; one character stands for one UTF-16
      code unit, so [content.length] is [strlen content].
    - [VSBuffer.fromString] and [VSBuffer.toString] are inverse to each other on
      such strings and are left out: a file holds a [string].
    - A promise-returning method is a computation of type [Async W A] over the
      world [W] it acts on: it ends resolved ([inr]) or rejected ([inl]);
      [await] is the bind of that monad and [try_catch] its handler.
    - Collaborators that the classes receive through their constructors (the
      file service, the channel, the superclass of a service) are parameters. *)

From Stdlib Require Import Bool List PeanoNat NArith Lia Ascii String DecimalString.
Import ListNotations.

Local Open Scope string_scope.
Local Open Scope N_scope.

(** ** Strings and numbers as JavaScript prints them *)

(** [content.length]. *)
Definition strlen (s : string) : N := N.of_nat (String.length s).

(** A non-negative integer inside a template literal: its decimal digits. *)
Definition dec (v : N) : string := NilZero.string_of_uint (N.to_uint v).

(** The line feed written as [\n] in the source. *)
Definition LF : string := String (ascii_of_nat 10) EmptyString.

(** [n] copies of one character (used to build large contents). *)
Definition replicate (n : N) (c : ascii) : string := N.iter n (String c) EmptyString.

(** ** Log levels *)

Module LogLevel.
Inductive t : Set := Off | Trace | Debug | Info | Warning | Error.
End LogLevel.
Abbreviation LogLevel := LogLevel.t.

(** ** Thrown values and promises *)

(** Modelled from the spec: the enumeration [FileOperationResult] is declared
    in [vs/platform/files/common/files], which is not part of the sources at
    hand; the members listed are the one the logger tests for and the ones
    the storage contract names ([NotFound], [PermissionDenied], other). *)
Inductive FileOperationResult : Set :=
| FILE_NOT_FOUND
| FILE_MODIFIED_SINCE
| FILE_PERMISSION_DENIED
| FILE_OTHER_ERROR.

(** What a rejected promise carries: a [FileOperationError] with its result
    code, or any other error object. *)
Inductive Thrown : Set :=
| FileOperationError (result : FileOperationResult)
| OtherError (message : string).

(** [(<FileOperationError>error).fileOperationResult]: the cast is a type
    assertion only, the field is [undefined] on any other error. *)
Definition fileOperationResult (error : Thrown) : option FileOperationResult :=
  match error with
  | FileOperationError result => Some result
  | OtherError _ => None
  end.

Definition FileOperationResult_eqb (a b : FileOperationResult) : bool :=
  match a, b with
  | FILE_NOT_FOUND, FILE_NOT_FOUND
  | FILE_MODIFIED_SINCE, FILE_MODIFIED_SINCE
  | FILE_PERMISSION_DENIED, FILE_PERMISSION_DENIED
  | FILE_OTHER_ERROR, FILE_OTHER_ERROR => true
  | _, _ => false
  end.

(** [error.fileOperationResult !== code]. *)
Definition result_differs (r : option FileOperationResult) (code : FileOperationResult) : bool :=
  match r with
  | Some r' => negb (FileOperationResult_eqb r' code)
  | None => true
  end.

Section Async.
Context {W : Type}.

Definition Async (A : Type) : Type := W -> (Thrown + A) * W.

Definition resolve {A} (a : A) : Async A := fun w => (inr a, w).

Definition reject {A} (error : Thrown) : Async A := fun w => (inl error, w).

Definition await {A B} (p : Async A) (k : A -> Async B) : Async B :=
  fun w =>
    match p w with
    | (inr a, w') => k a w'
    | (inl error, w') => (inl error, w')
    end.

Definition try_catch {A} (body : Async A) (handler : Thrown -> Async A) : Async A :=
  fun w =>
    match body w with
    | (inl error, w') => handler error w'
    | (inr a, w') => (inr a, w')
    end.

(** Awaiting a promise that has already settled. *)
Definition settled {A} (p : Thrown + A) : Async A :=
  match p with
  | inl error => reject error
  | inr a => resolve a
  end.
End Async.

Arguments Async : clear implicits.

Notation "x <- p ;; k" := (await p (fun x => k))
  (at level 61, p at next level, right associativity).

(** ** Collaborators of the file logger *)

(** [dirname], [basename] and [joinPath] of [vs/base/common/resources]. *)
Class IResources (URI : Type) : Type := {
  dirname : URI -> URI;
  basename : URI -> string;
  joinPath : URI -> string -> URI
}.

(** The part of [IFileService] the logger calls, over the state [FS] of the
    file system behind it. *)
Class IFileService (URI FS : Type) : Type := {
  createFile : URI -> Async FS unit;
  readFile : URI -> Async FS string;
  writeFile : URI -> string -> Async FS unit
}.

(** What [new Date()] reads from the clock, through its getters. *)
Record Date : Set := {
  getFullYear : N;
  getMonth : N;
  getDate : N;
  getHours : N;
  getMinutes : N;
  getSeconds : N;
  getMilliseconds : N
}.

(** ** The file logger ([fileLog.ts]) *)

Module FileLogger.
Section FileLogger.
Context {URI FS : Type} {resources : IResources URI} {files : IFileService URI FS}.

(** [ByteSize.MB], imported from the files module. *)
Variable ByteSize_MB : N.

(** The constructor's arguments. *)
Variable resource : URI.
Variable donotUseFormatters : bool.

Definition MAX_FILE_SIZE : N := 5 * ByteSize_MB.

(** The mutable part of a logger together with the file system it writes. *)
Record State : Type := {
  fileService : FS;
  backupIndex : N
}.

Definition onFileService {A} (p : Async FS A) : Async State A :=
  fun st =>
    let (r, fs) := p (fileService st) in
    (r, {| fileService := fs; backupIndex := backupIndex st |}).

(** The state of a logger whose file system has moved on to [fs]. *)
Definition after_read (st : State) (fs : FS) : State :=
  {| fileService := fs; backupIndex := backupIndex st |}.

Definition initialize : Async FS unit :=
  try_catch (createFile resource)
    (fun error =>
       if result_differs (fileOperationResult error) FILE_MODIFIED_SINCE
       then reject error
       else resolve tt).

Definition toTwoDigits (v : N) : string :=
  if v <? 10 then "0" ++ dec v else dec v.

Definition toThreeDigits (v : N) : string :=
  if v <? 10 then "00" ++ dec v else if v <? 100 then "0" ++ dec v else dec v.

Definition getCurrentTimestamp (currentTime : Date) : string :=
  dec (getFullYear currentTime) ++ "-" ++
  toTwoDigits (getMonth currentTime + 1) ++ "-" ++
  toTwoDigits (getDate currentTime) ++ " " ++
  toTwoDigits (getHours currentTime) ++ ":" ++
  toTwoDigits (getMinutes currentTime) ++ ":" ++
  toTwoDigits (getSeconds currentTime) ++ "." ++
  toThreeDigits (getMilliseconds currentTime).

(** The method is synchronous: it only updates [backupIndex]. *)
Definition getBackupResource : Async State URI :=
  fun st =>
    let index := if 5 <? backupIndex st then 1 else backupIndex st in
    (inr (joinPath (dirname resource) (basename resource ++ "_" ++ dec index)),
     {| fileService := fileService st; backupIndex := index + 1 |}).

Definition loadContent : Async FS string :=
  try_catch (readFile resource) (fun _ => resolve "").

Definition stringifyLogLevel (level : LogLevel) : string :=
  match level with
  | LogLevel.Debug => "debug"
  | LogLevel.Error => "error"
  | LogLevel.Info => "info"
  | LogLevel.Trace => "trace"
  | LogLevel.Warning => "warning"
  | _ => ""
  end.

(** The task that [log] hands to the queue.  [initializePromise] is the
    settled promise the task awaits first, [currentTime] the clock reading
    of [getCurrentTimestamp] when the task gets there. *)
Definition logTask (initializePromise : Thrown + unit) (currentTime : Date)
    (level : LogLevel) (message : string) : Async State unit :=
  _ <- settled initializePromise ;;
  content <- onFileService loadContent ;;
  content <-
    (if MAX_FILE_SIZE <? strlen content
     then
       backup <- getBackupResource ;;
       _ <- onFileService (writeFile backup content) ;;
       resolve ""
     else resolve content) ;;
  let content :=
    if donotUseFormatters
    then content ++ message
    else content ++ (getCurrentTimestamp currentTime ++ " [" ++
                     stringifyLogLevel level ++ "] " ++ message ++ LF) in
  onFileService (writeFile resource content).

(** What a task appends to the content it starts from. *)
Definition appended (currentTime : Date) (level : LogLevel) (message : string) : string :=
  if donotUseFormatters
  then message
  else getCurrentTimestamp currentTime ++ " [" ++
       stringifyLogLevel level ++ "] " ++ message ++ LF.

(** [n] consecutive calls of [getBackupResource], with what they return. *)
Fixpoint rotations (n : nat) (st : State) : list URI * State :=
  match n with
  | O => ([], st)
  | S n' =>
      match getBackupResource st with
      | (inr backup, st') => let (l, st'') := rotations n' st' in (backup :: l, st'')
      | (inl _, st') => ([], st')
      end
  end.

(** The backup resource of a slot, as the rotation names it. *)
Definition backupResource (slot : N) : URI :=
  joinPath (dirname resource) (basename resource ++ "_" ++ dec slot).

(** *** The logger with its queue *)

(** Modelled from the spec: [Queue] of [vs/base/common/async] is not part of
    the sources at hand.  Tasks for one logger execute strictly one at a
    time, in submission order; a task that fails settles its own promise
    and the queue goes on with the next one.  While a task waits for the
    file service only further submissions can reach the logger, and the
    queue holds them back, so a task runs as one step. *)
Record Logger : Type := {
  state : State;
  (** [None] while [createFile] is still in flight. *)
  initializePromise : option (Thrown + unit);
  (** Submitted tasks that have not run yet, oldest first. *)
  queue : list (LogLevel * string);
  (** How the tasks that ran have settled, oldest first. *)
  outcomes : list (Thrown + unit)
}.

(** The constructor: [backupIndex = 1], an empty queue, [initialize()]
    started. *)
Definition create (fs : FS) : Logger :=
  {| state := {| fileService := fs; backupIndex := 1 |};
     initializePromise := None;
     queue := [];
     outcomes := [] |}.

(** [log(level, message)]: the task is queued, the caller goes on. *)
Definition log (level : LogLevel) (message : string) (lg : Logger) : Logger :=
  {| state := state lg;
     initializePromise := initializePromise lg;
     queue := (queue lg ++ [(level, message)])%list;
     outcomes := outcomes lg |}.

Inductive Event : Type :=
| Submit (level : LogLevel) (message : string)
| InitializeSettles
| RunTask (currentTime : Date).

(** Modelled from the spec: one move of the event loop around the queue;
    [None] when the move is not enabled: the initialization settles once, and
    a task runs only when it is the oldest one and the promise it awaits has
    settled. *)
Definition step (ev : Event) (lg : Logger) : option Logger :=
  match ev with
  | Submit level message => Some (log level message lg)
  | InitializeSettles =>
      match initializePromise lg with
      | Some _ => None
      | None =>
          let (r, fs) := initialize (fileService (state lg)) in
          Some {| state := {| fileService := fs; backupIndex := backupIndex (state lg) |};
                  initializePromise := Some r;
                  queue := queue lg;
                  outcomes := outcomes lg |}
      end
  | RunTask currentTime =>
      match initializePromise lg, queue lg with
      | Some p, (level, message) :: rest =>
          let (r, st) := logTask p currentTime level message (state lg) in
          Some {| state := st;
                  initializePromise := Some p;
                  queue := rest;
                  outcomes := (outcomes lg ++ [r])%list |}
      | _, _ => None
      end
  end.

Fixpoint run (evs : list Event) (lg : Logger) : option Logger :=
  match evs with
  | [] => Some lg
  | ev :: evs' =>
      match step ev lg with
      | Some lg' => run evs' lg'
      | None => None
      end
  end.

(** The tasks submitted by a schedule and the clock readings of its runs,
    both oldest first, and the entries they render: the queue pairs the
    i-th run with the i-th submission. *)
Fixpoint submissions (evs : list Event) : list (LogLevel * string) :=
  match evs with
  | [] => []
  | Submit level message :: evs' => (level, message) :: submissions evs'
  | _ :: evs' => submissions evs'
  end.

Fixpoint clocks (evs : list Event) : list Date :=
  match evs with
  | [] => []
  | RunTask currentTime :: evs' => currentTime :: clocks evs'
  | _ :: evs' => clocks evs'
  end.

Definition render (run : Date * (LogLevel * string)) : string :=
  appended (fst run) (fst (snd run)) (snd (snd run)).

Definition rendered (times : list Date) (tasks : list (LogLevel * string)) : list string :=
  map render (combine times tasks).

End FileLogger.
End FileLogger.

(** Modelled from the spec: [ByteSize.MB] is declared in
    [vs/platform/files/common/files]; the ceiling [5 * ByteSize.MB] is 5 MiB. *)
Definition MB : N := 1024 * 1024.

(** The strings of a list, one after the other. *)
Definition concat_strings (l : list string) : string :=
  fold_right String.append EmptyString l.

(** ** The entry format in the words of the specification

    [YYYY-MM-DD HH:MM:SS.mmm [levelname] message\n]: the year, then fields
    padded with zeros to two digits (three for the milliseconds), and a
    lower-case level name that is empty for [Off]. *)

Module Format.

Definition zero_padded (width : nat) (v : N) : string :=
  let digits := dec v in
  replicate (N.of_nat (width - String.length digits)) "0"%char ++ digits.

Definition levelname (level : LogLevel) : string :=
  match level with
  | LogLevel.Trace => "trace"
  | LogLevel.Debug => "debug"
  | LogLevel.Info => "info"
  | LogLevel.Warning => "warning"
  | LogLevel.Error => "error"
  | LogLevel.Off => ""
  end.

Definition timestamp (t : Date) : string :=
  dec (getFullYear t) ++ "-" ++ zero_padded 2 (getMonth t + 1) ++ "-" ++
  zero_padded 2 (getDate t) ++ " " ++ zero_padded 2 (getHours t) ++ ":" ++
  zero_padded 2 (getMinutes t) ++ ":" ++ zero_padded 2 (getSeconds t) ++ "." ++
  zero_padded 3 (getMilliseconds t).

Definition entry (t : Date) (level : LogLevel) (message : string) : string :=
  timestamp t ++ " [" ++ levelname level ++ "] " ++ message ++ LF.

(** The ranges of the getters of a JavaScript [Date]. *)
Definition in_range (t : Date) : bool :=
  (getMonth t <=? 11) &&
  (1 <=? getDate t) && (getDate t <=? 31) &&
  (getHours t <=? 23) && (getMinutes t <=? 59) && (getSeconds t <=? 59) &&
  (getMilliseconds t <=? 999).

End Format.

(** ** An in-memory file service *)

Module MemFS.

Definition Path : Set := list string.

Definition Path_eq_dec : forall a b : Path, {a = b} + {a <> b} :=
  list_eq_dec string_dec.

(** Modelled from the spec: [dirname], [basename] and [joinPath] of
    [vs/base/common/resources] are not part of the sources at hand; on a path
    they are the path without its last segment, that segment, and the path
    with one more segment, so that a backup is [<dirname>/<basename>_<slot>]. *)
#[global] Instance resources : IResources Path := {|
  dirname p := removelast p;
  basename p := last p "";
  joinPath p name := (p ++ [name])%list
|}.

(** Modelled from the spec: the file service behind [IFileService] is an
    external collaborator, given by its contract only.  [stored] is what each
    resource holds, [denied] the resources whose access is refused, and
    [journal] the successful writes, oldest first. *)
Record t : Type := {
  stored : Path -> option string;
  denied : Path -> bool;
  journal : list (Path * string)
}.

Definition put (r : Path) (c : string) (f : Path -> option string) : Path -> option string :=
  fun r' => if Path_eq_dec r r' then Some c else f r'.

(** Modelled from the spec: [createFile] fails on a resource for which
    access is refused and on one that exists already, the latter with
    [FILE_MODIFIED_SINCE], the code the logger treats as benign; otherwise it
    creates the resource, empty. *)
Definition create (r : Path) : Async t unit :=
  fun fs =>
    if denied fs r then (inl (FileOperationError FILE_PERMISSION_DENIED), fs)
    else
      match stored fs r with
      | Some _ => (inl (FileOperationError FILE_MODIFIED_SINCE), fs)
      | None =>
          (inr tt, {| stored := put r "" (stored fs);
                      denied := denied fs;
                      journal := journal fs |})
      end.

(** Modelled from the spec: [readFile] fails on a refused or missing
    resource and leaves the file system as it is. *)
Definition read (r : Path) : Async t string :=
  fun fs =>
    if denied fs r then (inl (FileOperationError FILE_PERMISSION_DENIED), fs)
    else
      match stored fs r with
      | Some c => (inr c, fs)
      | None => (inl (FileOperationError FILE_NOT_FOUND), fs)
      end.

(** Modelled from the spec: [writeFile] fails on a refused resource;
    otherwise it replaces the whole content, creating the resource if needed. *)
Definition write (r : Path) (c : string) : Async t unit :=
  fun fs =>
    if denied fs r then (inl (FileOperationError FILE_PERMISSION_DENIED), fs)
    else
      (inr tt, {| stored := put r c (stored fs);
                  denied := denied fs;
                  journal := (journal fs ++ [(r, c)])%list |}).

#[global] Instance service : IFileService Path t := {|
  createFile := create;
  readFile := read;
  writeFile := write
|}.

(** A file system holding the given files, refusing nothing. *)
Definition of_list (l : list (Path * string)) : t :=
  {| stored := fold_right (fun rc f => put (fst rc) (snd rc) f) (fun _ => None) l;
     denied := fun _ => false;
     journal := [] |}.

Definition empty : t := of_list [].

(** The same file system with access to [r] refused. *)
Definition deny (r : Path) (fs : t) : t :=
  {| stored := stored fs;
     denied := fun r' => if Path_eq_dec r r' then true else denied fs r';
     journal := journal fs |}.

(** What [r] holds, nothing when it is missing. *)
Definition content (fs : t) (r : Path) : string :=
  match stored fs r with
  | Some c => c
  | None => ""
  end.

(** The contents written to resources other than [r], oldest first. *)
Definition written_elsewhere (r : Path) (fs : t) : list string :=
  map snd (filter (fun rc => if Path_eq_dec r (fst rc) then false else true) (journal fs)).

End MemFS.

(** ** The log IPC module *)

Module LogIpc.
Section LogIpc.
Context {URI : Type}.

(** [URI.revive], which turns the serialized form of a resource back into a
    resource. *)
Variable URI_revive : URI -> URI.

(** [ILoggerOptions], and the fields of an [ILoggerResource] other than
    [resource]. *)
Context {ILoggerOptions LoggerInfo : Type}.

Record ILoggerResource : Type := {
  resource : URI;
  info : LoggerInfo
}.

Record DidChangeLoggersEvent : Type := {
  added : list ILoggerResource;
  removed : list ILoggerResource
}.

(** A [channel.call(command, arg)], one constructor for each command the
    module sends, with the argument array it sends. *)
Inductive Call : Type :=
| call_setLevel (level : LogLevel) (resource : option URI)
| call_registerLogger (logger : ILoggerResource) (windowId : option N)
| call_deregisterLogger (resource : URI) (windowId : option N)
| call_setLogLevel (resource : URI) (logLevel : LogLevel)
| call_setVisibility (resource : URI) (visibility : bool)
| call_createLogger (file : URI) (loggerOptions : option ILoggerOptions)
| call_log (file : URI) (messages : list (LogLevel * string))
| call_consoleLog (level : LogLevel) (args : list string).

Definition command (c : Call) : string :=
  match c with
  | call_setLevel _ _ => "setLevel"
  | call_registerLogger _ _ => "registerLogger"
  | call_deregisterLogger _ _ => "deregisterLogger"
  | call_setLogLevel _ _ => "setLogLevel"
  | call_setVisibility _ _ => "setVisibility"
  | call_createLogger _ _ => "createLogger"
  | call_log _ _ => "log"
  | call_consoleLog _ _ => "consoleLog"
  end.

(** An [IChannel] as seen from the caller: the calls issued on it so far,
    oldest first. *)
Definition IChannel : Type := list Call.

Definition channel_call (c : Call) (channel : IChannel) : IChannel :=
  (channel ++ [c])%list.

(** *** [LoggerChannelClient] *)

Section LoggerChannelClient.
(** The state kept by the superclass [AbstractLoggerService]. *)
Context {Directory : Type}.

Variable windowId : option N.

Record LoggerChannelClient : Type := {
  directory : Directory;
  channel : IChannel
}.

(** A call of one of the four mutators that [LoggerChannelClient]
    overrides. *)
Inductive LocalCall : Type :=
| RegisterLogger (logger : ILoggerResource)
| DeregisterLogger (resource : URI)
| SetLogLevel (resource : URI) (logLevel : LogLevel)
| SetVisibility (resource : URI) (visibility : bool).

(** The body of a method of the superclass.  It reads and writes the state
    the superclass keeps, and it can call a method on [this].  Under
    [super.registerLogger(..)] and the like [this] is still the client, so
    a call of one of the four mutators, [This], runs the overriding method
    of the client.  [Sends] is a call that another method of the client
    issues on the channel when a body runs it on [this]: [doCreateLogger]
    constructs a [Logger], which calls [createLogger], and the logger of
    [createConsoleMainLogger] calls [consoleLog].  The channel is a private
    field of the client, which a body reaches in no other way. *)
Inductive Body : Type :=
| Done
| Get (rest : Directory -> Body)
| Put (d : Directory) (rest : Body)
| This (call : LocalCall) (rest : Body)
| Sends (call : Call) (rest : Body).

(** The four mutators of the superclass, reached as [super.registerLogger]
    and so on. *)
Variable super_registerLogger : ILoggerResource -> Body.
Variable super_deregisterLogger : URI -> Body.
Variable super_setLogLevel : URI -> LogLevel -> Body.
Variable super_setVisibility : URI -> bool -> Body.

(** A method running on the client.  It gives [None] when the calls on
    [this] nest deeper than the bound given to [this_at]. *)
Definition Method : Type := LoggerChannelClient -> option LoggerChannelClient.

Definition and_then (first next : Method) : Method :=
  fun c =>
    match first c with
    | Some c => next c
    | None => None
    end.

Fixpoint for_each {A : Type} (l : list A) (body : A -> Method) : Method :=
  match l with
  | [] => fun c => Some c
  | a :: l' => and_then (body a) (for_each l' body)
  end.

(** [this.channel.call(..)]. *)
Definition on_channel (call : Call) : Method :=
  fun c => Some {| directory := directory c; channel := channel_call call (channel c) |}.

(** A body of the superclass run on the client, the methods of [this] being
    [this]. *)
Fixpoint run_super (this : LocalCall -> Method) (b : Body) : Method :=
  fun c =>
    match b with
    | Done => Some c
    | Get rest => run_super this (rest (directory c)) c
    | Put d rest => run_super this rest {| directory := d; channel := channel c |}
    | This call rest => and_then (this call) (run_super this rest) c
    | Sends call rest => and_then (on_channel call) (run_super this rest) c
    end.

(** The three listeners registered by the constructor. *)
Definition onDidChangeLogLevel (this : LocalCall -> Method) (ev : URI * LogLevel) : Method :=
  let (resource, logLevel) := ev in
  run_super this (super_setLogLevel (URI_revive resource) logLevel).

Definition onDidChangeVisibility (this : LocalCall -> Method) (ev : URI * bool) : Method :=
  let (resource, visibility) := ev in
  run_super this (super_setVisibility (URI_revive resource) visibility).

Definition onDidChangeLoggers (this : LocalCall -> Method) (ev : DidChangeLoggersEvent) : Method :=
  and_then
    (for_each (added ev)
       (fun loggerResource =>
          run_super this
            (super_registerLogger
               {| resource := URI_revive (resource loggerResource);
                  info := info loggerResource |})))
    (for_each (removed ev)
       (fun loggerResource =>
          run_super this (super_deregisterLogger (resource loggerResource)))).

(** The four overridden mutators. *)
Definition registerLogger (this : LocalCall -> Method) (logger : ILoggerResource) : Method :=
  and_then (run_super this (super_registerLogger logger))
    (on_channel (call_registerLogger logger windowId)).

Definition deregisterLogger (this : LocalCall -> Method) (resource : URI) : Method :=
  and_then (run_super this (super_deregisterLogger resource))
    (on_channel (call_deregisterLogger resource windowId)).

Definition setLogLevel (this : LocalCall -> Method) (resource : URI) (logLevel : LogLevel) : Method :=
  and_then (run_super this (super_setLogLevel resource logLevel))
    (on_channel (call_setLogLevel resource logLevel)).

Definition setVisibility (this : LocalCall -> Method) (resource : URI) (visibility : bool) : Method :=
  and_then (run_super this (super_setVisibility resource visibility))
    (on_channel (call_setVisibility resource visibility)).

Definition invoke (this : LocalCall -> Method) (call : LocalCall) : Method :=
  match call with
  | RegisterLogger logger => registerLogger this logger
  | DeregisterLogger resource => deregisterLogger this resource
  | SetLogLevel resource logLevel => setLogLevel this resource logLevel
  | SetVisibility resource visibility => setVisibility this resource visibility
  end.

(** The methods of the client as [this] has them: a call of a mutator on
    [this] runs the overriding method, in which [this] is the client again.
    [depth] bounds how deep such calls nest. *)
Fixpoint this_at (depth : nat) (call : LocalCall) : Method :=
  match depth with
  | O => fun _ => None
  | S depth' => invoke (this_at depth') call
  end.

(** What reaches a client: an event of the responder, or a call of one of
    its own overridden mutators. *)
Inductive RemoteEvent : Type :=
| DidChangeLogLevel (ev : URI * LogLevel)
| DidChangeVisibility (ev : URI * bool)
| DidChangeLoggers (ev : DidChangeLoggersEvent).

Definition receive (this : LocalCall -> Method) (ev : RemoteEvent) : Method :=
  match ev with
  | DidChangeLogLevel ev => onDidChangeLogLevel this ev
  | DidChangeVisibility ev => onDidChangeVisibility this ev
  | DidChangeLoggers ev => onDidChangeLoggers this ev
  end.

Definition perform (this : LocalCall -> Method) (a : RemoteEvent + LocalCall) : Method :=
  match a with
  | inl ev => receive this ev
  | inr call => invoke this call
  end.

Definition perform_all (this : LocalCall -> Method) (l : list (RemoteEvent + LocalCall)) : Method :=
  for_each l (perform this).

(** The mutator of the superclass that an overridden mutator starts with. *)
Definition super (call : LocalCall) : Body :=
  match call with
  | RegisterLogger logger => super_registerLogger logger
  | DeregisterLogger resource => super_deregisterLogger resource
  | SetLogLevel resource logLevel => super_setLogLevel resource logLevel
  | SetVisibility resource visibility => super_setVisibility resource visibility
  end.

(** A body that calls no method on [this] that uses the channel. *)
Inductive quiet : Body -> Prop :=
| quiet_Done : quiet Done
| quiet_Get (rest : Directory -> Body) : (forall d, quiet (rest d)) -> quiet (Get rest)
| quiet_Put (d : Directory) (rest : Body) : quiet rest -> quiet (Put d rest).

(** What a body does to the state of the superclass, its calls on [this]
    left aside. *)
Fixpoint mutation (b : Body) (d : Directory) : Directory :=
  match b with
  | Done => d
  | Get rest => mutation (rest d) d
  | Put d' rest => mutation rest d'
  | This _ rest => mutation rest d
  | Sends _ rest => mutation rest d
  end.

(** The same in the words of the specification: the mutation of the
    superclass an event or a call stands for, and the call an overridden
    mutator forwards to the responder. *)
Definition mutation_of_event (ev : RemoteEvent) (d : Directory) : Directory :=
  match ev with
  | DidChangeLogLevel (resource, logLevel) =>
      mutation (super_setLogLevel (URI_revive resource) logLevel) d
  | DidChangeVisibility (resource, visibility) =>
      mutation (super_setVisibility (URI_revive resource) visibility) d
  | DidChangeLoggers ev =>
      let d :=
        fold_left
          (fun d l => mutation (super_registerLogger
                                  {| resource := URI_revive (resource l); info := info l |}) d)
          (added ev) d in
      fold_left (fun d l => mutation (super_deregisterLogger (resource l)) d) (removed ev) d
  end.

Definition mutation_of_call (call : LocalCall) (d : Directory) : Directory :=
  mutation (super call) d.

Definition forwarded (call : LocalCall) : Call :=
  match call with
  | RegisterLogger logger => call_registerLogger logger windowId
  | DeregisterLogger resource => call_deregisterLogger resource windowId
  | SetLogLevel resource logLevel => call_setLogLevel resource logLevel
  | SetVisibility resource visibility => call_setVisibility resource visibility
  end.

Definition mutation_of (a : RemoteEvent + LocalCall) : Directory -> Directory :=
  match a with
  | inl ev => mutation_of_event ev
  | inr call => mutation_of_call call
  end.

Definition local_calls (l : list (RemoteEvent + LocalCall)) : list LocalCall :=
  flat_map (fun a => match a with inl _ => [] | inr call => [call] end) l.
End LoggerChannelClient.

(** *** The remote proxy [Logger] *)

Section Logger.
(** The constructor's arguments [file] and [loggerOptions]. *)
Variable file : URI.
Variable loggerOptions : option ILoggerOptions.

(** The promise of the [createLogger] call. *)
Inductive Creation : Set := Pending | Resolved | Rejected.

Record Logger : Type := {
  isLoggerCreated : bool;
  buffer : list (LogLevel * string);
  logger_channel : IChannel;
  creation : Creation
}.

Definition create (channel : IChannel) : Logger :=
  {| isLoggerCreated := false;
     buffer := [];
     logger_channel := channel_call (call_createLogger file loggerOptions) channel;
     creation := Pending |}.

Definition doLog (messages : list (LogLevel * string)) (lg : Logger) : Logger :=
  {| isLoggerCreated := isLoggerCreated lg;
     buffer := buffer lg;
     logger_channel := channel_call (call_log file messages) (logger_channel lg);
     creation := creation lg |}.

Definition log (level : LogLevel) (message : string) (lg : Logger) : Logger :=
  let messages := [(level, message)] in
  if isLoggerCreated lg
  then doLog messages lg
  else {| isLoggerCreated := isLoggerCreated lg;
          buffer := (buffer lg ++ messages)%list;
          logger_channel := logger_channel lg;
          creation := creation lg |}.

(** The callback given to [then] on the [createLogger] promise. *)
Definition onCreated (lg : Logger) : Logger :=
  let lg := doLog (buffer lg) lg in
  {| isLoggerCreated := true;
     buffer := buffer lg;
     logger_channel := logger_channel lg;
     creation := creation lg |}.

Inductive LoggerEvent : Type :=
| Log (level : LogLevel) (message : string)
| CreateLoggerResolves
| CreateLoggerRejects.

(** A promise settles once: the two settling events are enabled only
    while the call is pending, and only a resolution runs the callback. *)
Definition logger_step (ev : LoggerEvent) (lg : Logger) : option Logger :=
  match ev with
  | Log level message => Some (log level message lg)
  | CreateLoggerResolves =>
      match creation lg with
      | Pending =>
          let lg := onCreated lg in
          Some {| isLoggerCreated := isLoggerCreated lg;
                  buffer := buffer lg;
                  logger_channel := logger_channel lg;
                  creation := Resolved |}
      | _ => None
      end
  | CreateLoggerRejects =>
      match creation lg with
      | Pending =>
          Some {| isLoggerCreated := isLoggerCreated lg;
                  buffer := buffer lg;
                  logger_channel := logger_channel lg;
                  creation := Rejected |}
      | _ => None
      end
  end.

Fixpoint logger_run (evs : list LoggerEvent) (lg : Logger) : option Logger :=
  match evs with
  | [] => Some lg
  | ev :: evs' =>
      match logger_step ev lg with
      | Some lg' => logger_run evs' lg'
      | None => None
      end
  end.

(** The messages handed to the remote [log] operation, in the order of
    the calls and, inside a call, of its list. *)
Definition delivered (channel : IChannel) : list (LogLevel * string) :=
  flat_map (fun c => match c with call_log _ messages => messages | _ => [] end) channel.

Definition log_calls (channel : IChannel) : list Call :=
  filter (fun c => match c with call_log _ _ => true | _ => false end) channel.

(** The events of logging the given messages one after the other. *)
Definition logs (messages : list (LogLevel * string)) : list LoggerEvent :=
  map (fun m => Log (fst m) (snd m)) messages.

(** The messages a schedule logs, in arrival order. *)
Definition arrivals (evs : list LoggerEvent) : list (LogLevel * string) :=
  flat_map (fun ev => match ev with Log level message => [(level, message)] | _ => [] end) evs.

(** The messages a logger has accepted: those handed to the channel, then
    those it still holds. *)
Definition accepted (lg : Logger) : list (LogLevel * string) :=
  (delivered (logger_channel lg) ++ (if isLoggerCreated lg then [] else buffer lg))%list.

(** The flag is set exactly when the [createLogger] call has resolved. *)
Definition consistent (lg : Logger) : Prop :=
  isLoggerCreated lg = true <-> creation lg = Resolved.
End Logger.

(** *** [FollowerLogService] *)

Section FollowerLogService.
(** The log service handed to the constructor, with its [setLevel], and
    [setLevel] of the superclass [LogService] that wraps it. *)
Context {ILogService : Type}.
Variable logService_setLevel : LogLevel -> ILogService -> ILogService.
Variable super_setLevel : LogLevel -> ILogService -> ILogService.

(** What the follower does, in the order it does it. *)
Inductive Effect : Type :=
| SuperSetLevel (level : LogLevel)
| LogServiceSetLevel (level : LogLevel)
| ParentCall (c : Call).

Record FollowerLogService : Type := {
  logService : ILogService;
  effects : list Effect
}.

(** [LogLevelChannelClient.setLevel(level, resource?)], static and not. *)
Definition LogLevelChannelClient_setLevel (level : LogLevel) (resource : option URI) : Call :=
  call_setLevel level resource.

(** The listener registered on [parent.onDidChangeLogLevel]. *)
Definition follower_onDidChangeLogLevel (level : LogLevel) (f : FollowerLogService) : FollowerLogService :=
  {| logService := logService_setLevel level (logService f);
     effects := (effects f ++ [LogServiceSetLevel level])%list |}.

Definition setLevel (level : LogLevel) (f : FollowerLogService) : FollowerLogService :=
  let f := {| logService := super_setLevel level (logService f);
              effects := (effects f ++ [SuperSetLevel level])%list |} in
  {| logService := logService f;
     effects := (effects f ++ [ParentCall (LogLevelChannelClient_setLevel level None)])%list |}.

Definition parent_calls (l : list Effect) : list Call :=
  flat_map (fun e => match e with ParentCall c => [c] | _ => [] end) l.

(** What reaches a follower: a call of its [setLevel], or a level change
    announced by the parent. *)
Inductive FollowerEvent : Type :=
| LocalSetLevel (level : LogLevel)
| ParentChangedLevel (level : LogLevel).

Definition follow (ev : FollowerEvent) : FollowerLogService -> FollowerLogService :=
  match ev with
  | LocalSetLevel level => setLevel level
  | ParentChangedLevel level => follower_onDidChangeLogLevel level
  end.

Definition follow_all (evs : list FollowerEvent) (f : FollowerLogService) : FollowerLogService :=
  fold_left (fun f ev => follow ev f) evs f.

Definition local_levels (evs : list FollowerEvent) : list LogLevel :=
  flat_map (fun ev => match ev with LocalSetLevel level => [level] | _ => [] end) evs.

Definition wrapped_after (evs : list FollowerEvent) (s : ILogService) : ILogService :=
  fold_left
    (fun s ev =>
       match ev with
       | LocalSetLevel level => super_setLevel level s
       | ParentChangedLevel level => logService_setLevel level s
       end)
    evs s.
End FollowerLogService.

(** *** [LogLevelChannel] and [LogLevelChannelClient] *)

Section LogLevelChannel.
(** The two services handed to the constructor, with the one method of each
    that the channel calls. *)
Context {ILogService ILoggerService : Type}.
Variable logService_setLevel : LogLevel -> ILogService -> ILogService.
Variable loggerService_setLogLevel : URI -> LogLevel -> ILoggerService -> ILoggerService.

Record LogLevelChannel : Type := {
  channel_logService : ILogService;
  channel_loggerService : ILoggerService
}.

(** The events the channel serves. *)
Inductive ServedEvent : Set := onDidChangeLogLevel_event.

(** [listen(_, event)]: it returns the event or throws. *)
Definition LogLevelChannel_listen (event : string) : Thrown + ServedEvent :=
  if String.eqb event "onDidChangeLogLevel"
  then inr onDidChangeLogLevel_event
  else inl (OtherError ("Event not found: " ++ event)).

(** [call(_, command, arg)], with [arg] the array [[level, resource]] a
    client sends; a resource that is [undefined] is the falsy case of
    [arg[1] ? ... : ...]. *)
Definition LogLevelChannel_call (command : string) (arg : LogLevel * option URI) :
    Async LogLevelChannel unit :=
  fun ch =>
    if String.eqb command "setLevel"
    then
      match snd arg with
      | Some resource =>
          (inr tt,
           {| channel_logService := channel_logService ch;
              channel_loggerService :=
                loggerService_setLogLevel (URI_revive resource) (fst arg)
                  (channel_loggerService ch) |})
      | None =>
          (inr tt,
           {| channel_logService := logService_setLevel (fst arg) (channel_logService ch);
              channel_loggerService := channel_loggerService ch |})
      end
    else (inl (OtherError ("Call not found: " ++ command)), ch).

(** The event name [LogLevelChannelClient.onDidChangeLogLevel] listens to,
    and the names the constructor of [LoggerChannelClient] listens to. *)
Definition LogLevelChannelClient_onDidChangeLogLevel : string := "onDidChangeLogLevel".

Definition LoggerChannelClient_listens : list string :=
  ["onDidChangeLogLevel"; "onDidChangeVisibility"; "onDidChangeLoggers"].

(** A call as it reaches the channel: its command and its argument.  The
    channel looks at the argument of a [setLevel] call only. *)
Definition LogLevelChannel_receive (c : Call) : Async LogLevelChannel unit :=
  match c with
  | call_setLevel level resource => LogLevelChannel_call (command c) (level, resource)
  | _ => LogLevelChannel_call (command c) (LogLevel.Off, None)
  end.

End LogLevelChannel.

End LogIpc.
End LogIpc.

(** ** A logger over the in-memory file service *)

Section InMemory.
Variable resource : MemFS.Path.

(** Everything the logger has written, in the order it was written: the
    contents moved to backups, then what the resource holds. *)
Definition logged (fs : MemFS.t) : string :=
  concat_strings (MemFS.written_elsewhere resource fs) ++ MemFS.content fs resource.

(** The file service refuses nothing, and once the initialization has
    settled it has succeeded and the resource exists; no task has failed. *)
Definition healthy (lg : FileLogger.Logger (FS := MemFS.t)) : Prop :=
  (forall r, MemFS.denied (FileLogger.fileService (FileLogger.state lg)) r = false) /\
  match FileLogger.initializePromise lg with
  | Some p =>
      p = inr tt /\
      exists c, MemFS.stored (FileLogger.fileService (FileLogger.state lg)) resource = Some c
  | None => True
  end /\
  Forall (fun r => r = inr tt) (FileLogger.outcomes lg).
End InMemory.

(** ** Concrete inputs *)

Module Sample.

Definition resource : MemFS.Path := ["logs"; "main.log"].

Definition clock : Date :=
  {| getFullYear := 2023; getMonth := 1; getDate := 7;
     getHours := 9; getMinutes := 5; getSeconds := 0; getMilliseconds := 42 |}.

(** Two raw messages, the first one submitted before the file exists. *)
Definition two_messages : list FileLogger.Event :=
  [FileLogger.Submit LogLevel.Info "x"; FileLogger.InitializeSettles;
   FileLogger.Submit LogLevel.Info "y";
   FileLogger.RunTask clock; FileLogger.RunTask clock].

(** A message one character over the ceiling of 5 MiB. *)
Definition oversized : string := replicate (5 * MB + 1) "a"%char.

(** A message of exactly the ceiling of 5 MiB. *)
Definition at_ceiling : string := replicate (5 * MB) "a"%char.

(** A message of the given text, then ["b"], each written before the next
    is submitted. *)
Definition then_b (first : string) : list FileLogger.Event :=
  [FileLogger.InitializeSettles;
   FileLogger.Submit LogLevel.Info first; FileLogger.RunTask clock;
   FileLogger.Submit LogLevel.Info "b"; FileLogger.RunTask clock].

End Sample.

(** ** A superclass for the channel client *)

(** A logger service that keeps, for every registered resource, whether its
    logger is hidden. *)
Module Registry.

Definition Directory : Type := list (string * bool).

Definition Body : Type :=
  LogIpc.Body
    (URI := string) (ILoggerOptions := unit) (LoggerInfo := bool) (Directory := Directory).

Definition hidden_of (resource : string) (d : Directory) : option bool :=
  option_map snd (find (fun e => String.eqb (fst e) resource) d).

Definition set_hidden (resource : string) (hidden : bool) (d : Directory) : Directory :=
  map (fun e => if String.eqb (fst e) resource then (resource, hidden) else e) d.

Definition setVisibility (resource : string) (visibility : bool) : Body :=
  LogIpc.Get (fun d => LogIpc.Put (set_hidden resource (negb visibility) d) LogIpc.Done).

Definition setLogLevel (resource : string) (logLevel : LogLevel) : Body :=
  LogIpc.Done.

Definition deregisterLogger (resource : string) : Body :=
  LogIpc.Get (fun d =>
    LogIpc.Put (filter (fun e => negb (String.eqb (fst e) resource)) d) LogIpc.Done).

(** A resource that is new is added.  For one that is registered already
    and whose logger is hidden where the new one is not, or the other way
    round, the visibility is set through [this.setVisibility]. *)
Definition registerLogger
    (logger : LogIpc.ILoggerResource (URI := string) (LoggerInfo := bool)) : Body :=
  LogIpc.Get (fun d =>
    match hidden_of (LogIpc.resource logger) d with
    | Some hidden =>
        if Bool.eqb hidden (LogIpc.info logger)
        then LogIpc.Done
        else LogIpc.This
               (LogIpc.SetVisibility (LogIpc.resource logger) (negb (LogIpc.info logger)))
               LogIpc.Done
    | None =>
        LogIpc.Put (d ++ [(LogIpc.resource logger, LogIpc.info logger)])%list LogIpc.Done
    end).

(** The same, the flag of a registered resource written in place. *)
Definition registerLogger_in_place
    (logger : LogIpc.ILoggerResource (URI := string) (LoggerInfo := bool)) : Body :=
  LogIpc.Get (fun d =>
    match hidden_of (LogIpc.resource logger) d with
    | Some _ =>
        LogIpc.Put (set_hidden (LogIpc.resource logger) (LogIpc.info logger) d) LogIpc.Done
    | None =>
        LogIpc.Put (d ++ [(LogIpc.resource logger, LogIpc.info logger)])%list LogIpc.Done
    end).

(** A client in window 1 that knows one logger, visible, and has sent
    nothing; the same logger as the responder announces it, hidden. *)
Definition window_log : LogIpc.ILoggerResource (URI := string) (LoggerInfo := bool) :=
  {| LogIpc.resource := "window.log"; LogIpc.info := true |}.

Definition client :
    LogIpc.LoggerChannelClient
      (URI := string) (ILoggerOptions := unit) (LoggerInfo := bool) (Directory := Directory) :=
  {| LogIpc.directory := [("window.log", false)]; LogIpc.channel := [] |}.

Definition announced : LogIpc.RemoteEvent (URI := string) (LoggerInfo := bool) :=
  LogIpc.DidChangeLoggers {| LogIpc.added := [window_log]; LogIpc.removed := [] |}.

End Registry.

(** * Properties *)

(** ** Strings *)

Lemma append_nil_r (s : string) : s ++ "" = s.
Proof. induction s as [|c s IH]; simpl; [reflexivity | now rewrite IH]. Qed.

Lemma append_assoc (a b c : string) : (a ++ b) ++ c = a ++ (b ++ c).
Proof. induction a as [|x a IH]; simpl; [reflexivity | now rewrite IH]. Qed.

Lemma length_append (a b : string) :
  String.length (a ++ b) = (String.length a + String.length b)%nat.
Proof. induction a as [|x a IH]; simpl; [reflexivity | now rewrite IH]. Qed.

Lemma strlen_replicate (n : N) (c : ascii) : strlen (replicate n c) = n.
Proof.
  unfold strlen, replicate.
  induction n as [|n IH] using N.peano_ind.
  - reflexivity.
  - rewrite N.iter_succ. cbn [String.length]. rewrite Nat2N.inj_succ, IH. reflexivity.
Qed.

Lemma append_longer (a b : string) : a <> "" -> b <> a ++ b.
Proof.
  intros Ha E. apply (f_equal String.length) in E. rewrite length_append in E.
  destruct a; [congruence | simpl in E; lia].
Qed.

Lemma concat_strings_app (l1 l2 : list string) :
  concat_strings (l1 ++ l2) = concat_strings l1 ++ concat_strings l2.
Proof.
  induction l1 as [|x l1 IH]; simpl; [reflexivity|].
  now rewrite IH, append_assoc.
Qed.

(** A property checked on every number below a bound holds below it. *)
Lemma checked_below (P : N -> bool) (bound : N) :
  forallb P (map N.of_nat (seq 0 (N.to_nat bound))) = true ->
  forall v, v < bound -> P v = true.
Proof.
  intros H v Hv. rewrite forallb_forall in H. apply H.
  apply in_map_iff. exists (N.to_nat v). split; [apply N2Nat.id|].
  apply in_seq. lia.
Qed.

(** ** The file logger, over any file service *)

Ltac run_async :=
  cbv beta iota delta
    [FileLogger.logTask await settled resolve reject try_catch
     FileLogger.loadContent FileLogger.onFileService].

Section FileLoggerFacts.
Context {URI FS : Type} {resources : IResources URI} {files : IFileService URI FS}.
Variable ByteSize_MB : N.
Variable resource : URI.
Variable donotUseFormatters : bool.

Let State := FileLogger.State (FS := FS).
Let logTask := FileLogger.logTask ByteSize_MB resource donotUseFormatters.
Let appended := FileLogger.appended donotUseFormatters.
Let MAX_FILE_SIZE := FileLogger.MAX_FILE_SIZE ByteSize_MB.

Lemma initialize_created (fs fs' : FS) :
  createFile resource fs = (inr tt, fs') ->
  FileLogger.initialize resource fs = (inr tt, fs').
Proof. intros H. unfold FileLogger.initialize, try_catch. now rewrite H. Qed.

Lemma initialize_swallowed (fs fs' : FS) (error : Thrown) :
  createFile resource fs = (inl error, fs') ->
  fileOperationResult error = Some FILE_MODIFIED_SINCE ->
  FileLogger.initialize resource fs = (inr tt, fs').
Proof.
  intros H E. unfold FileLogger.initialize, try_catch. rewrite H, E. reflexivity.
Qed.

Lemma initialize_rethrown (fs fs' : FS) (error : Thrown) :
  createFile resource fs = (inl error, fs') ->
  fileOperationResult error <> Some FILE_MODIFIED_SINCE ->
  FileLogger.initialize resource fs = (inl error, fs').
Proof.
  intros H E. unfold FileLogger.initialize, try_catch. rewrite H.
  destruct (fileOperationResult error) as [[]|]; try reflexivity.
  now contradiction E.
Qed.

(** [initialize] never rejects with the code it was written to swallow. *)
Lemma initialize_rejection (fs fs' : FS) (error : Thrown) :
  FileLogger.initialize resource fs = (inl error, fs') ->
  fileOperationResult error <> Some FILE_MODIFIED_SINCE.
Proof.
  unfold FileLogger.initialize, try_catch.
  destruct (createFile resource fs) as [[e|[]] fs1]; [|discriminate].
  destruct (fileOperationResult e) as [[]|] eqn:E; cbn; intros H;
    inversion H; subst; congruence.
Qed.

Lemma logTask_rejected (error : Thrown) (now : Date) (level : LogLevel)
    (message : string) (st : State) :
  logTask (inl error) now level message st = (inl error, st).
Proof. reflexivity. Qed.

Lemma append_appended (content : string) (now : Date) (level : LogLevel) (message : string) :
  (if donotUseFormatters
   then content ++ message
   else content ++ (FileLogger.getCurrentTimestamp now ++ " [" ++
                    FileLogger.stringifyLogLevel level ++ "] " ++ message ++ LF))
  = content ++ appended now level message.
Proof. unfold appended, FileLogger.appended. now destruct donotUseFormatters. Qed.

(** A task whose read fails writes the entry alone. *)
Lemma logTask_read_failed (now : Date) (level : LogLevel) (message : string)
    (st : State) (error : Thrown) (fs : FS) :
  readFile resource (FileLogger.fileService st) = (inl error, fs) ->
  logTask (inr tt) now level message st =
  FileLogger.onFileService (writeFile resource (appended now level message))
    (FileLogger.after_read st fs).
Proof.
  intros H. unfold logTask. run_async. rewrite H. cbv beta iota.
  replace (FileLogger.MAX_FILE_SIZE ByteSize_MB <? strlen "") with false
    by (symmetry; apply N.ltb_ge; apply N.le_0_l).
  cbv beta iota. rewrite append_appended. reflexivity.
Qed.

(** A task that loads a content within the ceiling writes it back with the
    entry appended. *)
Lemma logTask_appends (now : Date) (level : LogLevel) (message : string)
    (st : State) (content : string) (fs : FS) :
  readFile resource (FileLogger.fileService st) = (inr content, fs) ->
  strlen content <= MAX_FILE_SIZE ->
  logTask (inr tt) now level message st =
  FileLogger.onFileService (writeFile resource (content ++ appended now level message))
    (FileLogger.after_read st fs).
Proof.
  intros H Hle. unfold logTask. run_async. rewrite H. cbv beta iota.
  apply N.ltb_ge in Hle. unfold MAX_FILE_SIZE in Hle. rewrite Hle.
  cbv beta iota. rewrite append_appended. reflexivity.
Qed.

(** A task that loads a content over the ceiling writes it to the backup
    resource, then writes the entry alone. *)
Lemma logTask_rotates (now : Date) (level : LogLevel) (message : string)
    (st : State) (content : string) (fs : FS) :
  readFile resource (FileLogger.fileService st) = (inr content, fs) ->
  MAX_FILE_SIZE < strlen content ->
  logTask (inr tt) now level message st =
  (backup <- FileLogger.getBackupResource resource ;;
   _ <- FileLogger.onFileService (writeFile backup content) ;;
   FileLogger.onFileService (writeFile resource (appended now level message)))
    (FileLogger.after_read st fs).
Proof.
  intros H Hlt. unfold logTask. run_async. rewrite H. cbv beta iota.
  apply N.ltb_lt in Hlt. unfold MAX_FILE_SIZE in Hlt. rewrite Hlt.
  cbv beta iota. fold (FileLogger.after_read st fs).
  destruct (FileLogger.getBackupResource resource (FileLogger.after_read st fs))
    as [[e|backup] st1]; [reflexivity|].
  destruct (writeFile backup content (FileLogger.fileService st1)) as [[e|[]] fs2];
    [reflexivity|].
  rewrite append_appended. reflexivity.
Qed.

End FileLoggerFacts.

(** ** The in-memory file service *)

Section MemFSFacts.
Variable resource : MemFS.Path.

Lemma put_same (c : string) (f : MemFS.Path -> option string) :
  MemFS.put resource c f resource = Some c.
Proof. unfold MemFS.put. destruct (MemFS.Path_eq_dec resource resource); congruence. Qed.

(** A backup resource is never the resource itself. *)
Lemma backupResource_fresh (slot : N) :
  FileLogger.backupResource resource slot <> resource.
Proof.
  unfold FileLogger.backupResource. cbn [joinPath dirname basename MemFS.resources].
  intros E.
  destruct (@exists_last _ resource) as [d [b Hr]].
  - intros ->. discriminate E.
  - rewrite Hr in E at 3. apply app_inj_tail in E. destruct E as [_ E].
    rewrite Hr, last_last in E.
    apply (f_equal String.length) in E. rewrite length_append in E.
    cbn [String.length String.append] in E. lia.
Qed.

Lemma written_elsewhere_same (st : MemFS.Path -> option string) (d : MemFS.Path -> bool)
    (j : list (MemFS.Path * string)) (c : string) :
  MemFS.written_elsewhere resource
    {| MemFS.stored := st; MemFS.denied := d; MemFS.journal := (j ++ [(resource, c)])%list |} =
  MemFS.written_elsewhere resource
    {| MemFS.stored := st; MemFS.denied := d; MemFS.journal := j |}.
Proof.
  unfold MemFS.written_elsewhere. cbn [MemFS.journal]. rewrite filter_app. cbn [filter fst].
  destruct (MemFS.Path_eq_dec resource resource); [|congruence].
  now rewrite app_nil_r.
Qed.

Lemma initialize_in_memory (fs : MemFS.t) :
  MemFS.denied fs resource = false ->
  exists fs',
    FileLogger.initialize resource fs = (inr tt, fs') /\
    MemFS.stored fs' resource = Some (MemFS.content fs resource) /\
    (forall r, r <> resource -> MemFS.stored fs' r = MemFS.stored fs r) /\
    MemFS.denied fs' = MemFS.denied fs /\
    MemFS.journal fs' = MemFS.journal fs.
Proof.
  intros Hd.
  unfold FileLogger.initialize, try_catch, MemFS.content.
  cbn [createFile MemFS.service]. unfold MemFS.create. rewrite Hd.
  destruct (MemFS.stored fs resource) as [c|] eqn:E.
  - exists fs. cbn. repeat split; auto.
  - eexists. split; [reflexivity|]. cbn [MemFS.stored MemFS.denied MemFS.journal].
    repeat split; auto using put_same.
    intros r Hr. unfold MemFS.put.
    destruct (MemFS.Path_eq_dec resource r); congruence.
Qed.

Variable ByteSize_MB : N.
Variable donotUseFormatters : bool.

Let logTask := FileLogger.logTask ByteSize_MB resource donotUseFormatters.
Let appended := FileLogger.appended donotUseFormatters.
Let MAX_FILE_SIZE := FileLogger.MAX_FILE_SIZE ByteSize_MB.

Lemma appends_in_memory (now : Date) (level : LogLevel) (message : string)
    (fs : MemFS.t) (index : N) (c : string) :
  MemFS.denied fs resource = false ->
  MemFS.stored fs resource = Some c ->
  strlen c <= MAX_FILE_SIZE ->
  logTask (inr tt) now level message
    {| FileLogger.fileService := fs; FileLogger.backupIndex := index |} =
  (inr tt,
   {| FileLogger.fileService :=
        {| MemFS.stored := MemFS.put resource (c ++ appended now level message) (MemFS.stored fs);
           MemFS.denied := MemFS.denied fs;
           MemFS.journal :=
             (MemFS.journal fs ++ [(resource, (c ++ appended now level message)%string)])%list |};
      FileLogger.backupIndex := index |}).
Proof.
  intros Hd Hs Hle. unfold logTask.
  rewrite (logTask_appends _ _ _ now level message _ c fs).
  - unfold FileLogger.onFileService, FileLogger.after_read.
    cbn [writeFile MemFS.service FileLogger.fileService FileLogger.backupIndex].
    unfold MemFS.write. rewrite Hd. reflexivity.
  - cbn [readFile MemFS.service FileLogger.fileService]. unfold MemFS.read.
    now rewrite Hd, Hs.
  - exact Hle.
Qed.

Lemma rotates_in_memory (now : Date) (level : LogLevel) (message : string)
    (fs : MemFS.t) (index : N) (c : string) :
  let slot := if 5 <? index then 1 else index in
  let backup := FileLogger.backupResource resource slot in
  MemFS.denied fs resource = false ->
  MemFS.denied fs backup = false ->
  MemFS.stored fs resource = Some c ->
  MAX_FILE_SIZE < strlen c ->
  logTask (inr tt) now level message
    {| FileLogger.fileService := fs; FileLogger.backupIndex := index |} =
  (inr tt,
   {| FileLogger.fileService :=
        {| MemFS.stored :=
             MemFS.put resource (appended now level message)
               (MemFS.put backup c (MemFS.stored fs));
           MemFS.denied := MemFS.denied fs;
           MemFS.journal :=
             (MemFS.journal fs ++ [(backup, c); (resource, appended now level message)])%list |};
      FileLogger.backupIndex := slot + 1 |}).
Proof.
  intros slot backup Hd Hb Hs Hlt. unfold logTask.
  rewrite (logTask_rotates _ _ _ now level message _ c fs).
  - unfold await, FileLogger.getBackupResource, FileLogger.onFileService, FileLogger.after_read.
    cbn [writeFile MemFS.service FileLogger.fileService FileLogger.backupIndex].
    fold slot. fold (FileLogger.backupResource resource slot). fold backup.
    unfold MemFS.write. rewrite Hb.
    cbn [FileLogger.fileService FileLogger.backupIndex MemFS.denied]. rewrite Hd.
    cbn [MemFS.stored MemFS.journal]. rewrite <- app_assoc. reflexivity.
  - cbn [readFile MemFS.service FileLogger.fileService]. unfold MemFS.read.
    now rewrite Hd, Hs.
  - exact Hlt.
Qed.

End MemFSFacts.

(** ** Schedules of a logger over the in-memory file service *)

Section Schedules.
Variable ByteSize_MB : N.
Variable resource : MemFS.Path.
Variable donotUseFormatters : bool.

Let Logger := FileLogger.Logger (FS := MemFS.t).
Let step := FileLogger.step ByteSize_MB resource donotUseFormatters.
Let run := FileLogger.run ByteSize_MB resource donotUseFormatters.
Let rendered := FileLogger.rendered donotUseFormatters.
Let fs_of (lg : Logger) : MemFS.t := FileLogger.fileService (FileLogger.state lg).

Lemma step_submit (level : LogLevel) (message : string) (lg : Logger) :
  healthy resource lg -> healthy resource (FileLogger.log level message lg).
Proof. intros H. exact H. Qed.

Lemma step_initialize (lg lg' : Logger) :
  healthy resource lg ->
  step FileLogger.InitializeSettles lg = Some lg' ->
  healthy resource lg' /\
  logged resource (fs_of lg') = logged resource (fs_of lg) /\
  FileLogger.queue lg' = FileLogger.queue lg.
Proof.
  intros (Hd & Hp & Ho). unfold step, FileLogger.step.
  destruct (FileLogger.initializePromise lg); [discriminate|].
  destruct (initialize_in_memory resource (FileLogger.fileService (FileLogger.state lg)))
    as (fs' & E & Hs & Hother & Hden & Hj); [apply Hd|].
  rewrite E. intros H. inversion H; subst; clear H.
  unfold healthy, fs_of, logged.
  cbn [FileLogger.state FileLogger.fileService FileLogger.initializePromise
       FileLogger.outcomes FileLogger.queue].
  repeat split.
  - intros r. rewrite Hden. apply Hd.
  - eauto.
  - exact Ho.
  - unfold MemFS.written_elsewhere, MemFS.content at 1. rewrite Hj, Hs. reflexivity.
Qed.

Lemma step_run (now : Date) (lg lg' : Logger) :
  healthy resource lg ->
  step (FileLogger.RunTask now) lg = Some lg' ->
  exists level message,
    FileLogger.queue lg = (level, message) :: FileLogger.queue lg' /\
    healthy resource lg' /\
    logged resource (fs_of lg') =
    logged resource (fs_of lg) ++ FileLogger.appended donotUseFormatters now level message.
Proof.
  intros (Hd & Hp & Ho). unfold step, FileLogger.step.
  destruct (FileLogger.initializePromise lg) as [p|] eqn:Ep; [|discriminate].
  destruct Hp as (-> & c & Hc).
  destruct (FileLogger.queue lg) as [|[level message] rest] eqn:Eq; [discriminate|].
  destruct lg as [[fs index] ip q outs].
  cbn [FileLogger.state FileLogger.fileService FileLogger.initializePromise
       FileLogger.outcomes FileLogger.queue] in *.
  destruct (N.le_gt_cases (strlen c) (FileLogger.MAX_FILE_SIZE ByteSize_MB)) as [Hle|Hgt].
  - rewrite (appends_in_memory resource ByteSize_MB donotUseFormatters now level message
               fs index c (Hd resource) Hc Hle).
    intros H. inversion H; subst; clear H. exists level, message.
    unfold healthy, fs_of, logged, MemFS.content.
    cbn [FileLogger.state FileLogger.fileService FileLogger.initializePromise
         FileLogger.outcomes FileLogger.queue MemFS.stored MemFS.denied].
    rewrite put_same, Hc.
    rewrite written_elsewhere_same.
    repeat split; eauto.
    + apply Forall_app; split; [exact Ho | repeat constructor].
    + unfold MemFS.written_elsewhere. now rewrite append_assoc.
  - pose proof (backupResource_fresh resource (if 5 <? index then 1 else index)) as Hfresh.
    rewrite (rotates_in_memory resource ByteSize_MB donotUseFormatters now level message
               fs index c (Hd resource) (Hd _) Hc Hgt).
    intros H. inversion H; subst; clear H. exists level, message.
    unfold healthy, fs_of, logged, MemFS.content.
    cbn [FileLogger.state FileLogger.fileService FileLogger.initializePromise
         FileLogger.outcomes FileLogger.queue MemFS.stored MemFS.denied].
    rewrite put_same, Hc.
    repeat split; eauto.
    + apply Forall_app; split; [exact Ho | repeat constructor].
    + unfold MemFS.written_elsewhere. cbn [MemFS.journal].
      rewrite !filter_app, !map_app. cbn [filter fst].
      destruct (MemFS.Path_eq_dec resource resource); [|congruence].
      destruct (MemFS.Path_eq_dec resource _) as [E|_];
        [symmetry in E; contradiction|].
      cbn [map snd app]. rewrite concat_strings_app.
      cbn [concat_strings fold_right]. now rewrite append_nil_r.
Qed.

(** Along any schedule the tasks run oldest first, each appending its entry
    to what has been logged. *)
Lemma run_logged (evs : list FileLogger.Event) :
  forall lg lg' : Logger,
    healthy resource lg ->
    run evs lg = Some lg' ->
    let tasks := (FileLogger.queue lg ++ FileLogger.submissions evs)%list in
    healthy resource lg' /\
    (List.length (FileLogger.clocks evs) <= List.length tasks)%nat /\
    FileLogger.queue lg' = skipn (List.length (FileLogger.clocks evs)) tasks /\
    logged resource (fs_of lg') =
    logged resource (fs_of lg) ++ concat_strings (rendered (FileLogger.clocks evs) tasks).
Proof.
  induction evs as [|ev evs IH]; intros lg lg' Hh Hrun; cbv zeta.
  - cbn in Hrun. inversion Hrun; subst. cbn. rewrite app_nil_r, append_nil_r.
    refine (conj Hh (conj _ (conj eq_refl eq_refl))). lia.
  - unfold run in Hrun. cbn [FileLogger.run] in Hrun.
    fold step in Hrun.
    destruct (step ev lg) as [lg1|] eqn:Estep; [|discriminate].
    fold run in Hrun.
    destruct ev as [level message| |now].
    + cbn in Estep. inversion Estep; subst lg1; clear Estep.
      destruct (IH _ _ (step_submit level message lg Hh) Hrun) as (H1 & H2 & H3 & H4).
      cbn [FileLogger.log FileLogger.queue FileLogger.state] in *.
      cbn [FileLogger.submissions FileLogger.clocks].
      rewrite <- app_assoc in H2, H3, H4. cbn [app] in H2, H3, H4.
      exact (conj H1 (conj H2 (conj H3 H4))).
    + destruct (step_initialize lg lg1 Hh Estep) as (Hh1 & Hl & Hq).
      destruct (IH _ _ Hh1 Hrun) as (H1 & H2 & H3 & H4).
      cbn [FileLogger.submissions FileLogger.clocks].
      rewrite Hq in H2, H3, H4. rewrite Hl in H4.
      exact (conj H1 (conj H2 (conj H3 H4))).
    + destruct (step_run now lg lg1 Hh Estep) as (level & message & Hq & Hh1 & Hl).
      destruct (IH _ _ Hh1 Hrun) as (H1 & H2 & H3 & H4).
      cbn [FileLogger.submissions FileLogger.clocks].
      rewrite Hq. cbn [app List.length skipn].
      refine (conj H1 (conj _ (conj H3 _))).
      * lia.
      * rewrite H4, Hl. unfold rendered, FileLogger.rendered.
        cbn [combine map concat_strings fold_right FileLogger.render fst snd].
        now rewrite append_assoc.
Qed.

End Schedules.

(** ** Order of the entries *)

Lemma healthy_create (resource : MemFS.Path) (initial : list (MemFS.Path * string)) :
  healthy resource (FileLogger.create (MemFS.of_list initial)).
Proof. unfold healthy. cbn. auto. Qed.

(** C1 (amended).  For every logger over a file service that refuses nothing,
    and every schedule of submissions, of the initialization settling and of
    task runs that leaves the queue empty - whether a message was submitted
    before or after the initialization settled - every task succeeds, each
    submission has its entry, and what the logger has written (the contents
    moved to backups in rotation order, then the content of the resource)
    is the content the resource held before, followed by the rendered
    entries in submission order.  When nothing was moved to a backup, the
    content of the resource is that prior content followed by the in-order
    concatenation of the rendered entries. *)
Theorem log_order_preserved :
  forall (ByteSize_MB : N) (resource : MemFS.Path) (donotUseFormatters : bool)
         (initial : list (MemFS.Path * string)) (evs : list FileLogger.Event)
         (lg : FileLogger.Logger),
    FileLogger.run ByteSize_MB resource donotUseFormatters evs
      (FileLogger.create (MemFS.of_list initial)) = Some lg ->
    FileLogger.queue lg = [] ->
    let fs := FileLogger.fileService (FileLogger.state lg) in
    let prior := MemFS.content (MemFS.of_list initial) resource in
    let entries :=
      FileLogger.rendered donotUseFormatters
        (FileLogger.clocks evs) (FileLogger.submissions evs) in
    List.length entries = List.length (FileLogger.submissions evs) /\
    Forall (fun r => r = inr tt) (FileLogger.outcomes lg) /\
    logged resource fs = prior ++ concat_strings entries /\
    (MemFS.written_elsewhere resource fs = [] ->
     MemFS.content fs resource = prior ++ concat_strings entries).
Proof.
  intros MB0 resource donot initial evs lg Hrun Hq fs prior entries.
  destruct (run_logged MB0 resource donot evs _ _ (healthy_create resource initial) Hrun)
    as ((_ & _ & Hout) & Hlen & Hskip & Hlogged).
  cbn [FileLogger.create FileLogger.queue app] in Hlen, Hskip, Hlogged.
  assert (Hsame : List.length (FileLogger.clocks evs) =
                  List.length (FileLogger.submissions evs)).
  { apply (f_equal (@List.length _)) in Hskip.
    rewrite Hq, length_skipn in Hskip. cbn in Hskip. lia. }
  assert (Heq : logged resource fs = prior ++ concat_strings entries).
  { subst fs prior entries. rewrite Hlogged. reflexivity. }
  refine (conj _ (conj Hout (conj Heq _))).
  - subst entries. unfold FileLogger.rendered.
    rewrite length_map, length_combine. lia.
  - intros Hnone. rewrite <- Heq. unfold logged. rewrite Hnone. reflexivity.
Qed.

Lemma log_order_preserved_witness :
  exists lg,
    FileLogger.run 2 Sample.resource true Sample.two_messages
      (FileLogger.create MemFS.empty) = Some lg /\
    MemFS.content (FileLogger.fileService (FileLogger.state lg)) Sample.resource = "xy".
Proof.
  eexists. split; [reflexivity|].
  destruct (log_order_preserved 2 Sample.resource true [] Sample.two_messages _
              eq_refl eq_refl) as (_ & _ & _ & H).
  exact (eq_trans (H eq_refl) eq_refl).
Defined.

Lemma strlen_oversized : strlen Sample.oversized = 5 * MB + 1.
Proof. unfold Sample.oversized. apply strlen_replicate. Qed.

Lemma oversized_not_empty : Sample.oversized <> "".
Proof.
  intros E. pose proof strlen_oversized as H. rewrite E in H. discriminate H.
Qed.

(** The schedule [Sample.then_b] without formatters, on an empty file system:
    the second task rotates exactly when the first message is over the
    ceiling. *)
Lemma then_b_rotates (ByteSize_MB : N) (first : string) :
  FileLogger.MAX_FILE_SIZE ByteSize_MB < strlen first ->
  FileLogger.run ByteSize_MB Sample.resource true (Sample.then_b first)
    (FileLogger.create MemFS.empty) =
  Some {| FileLogger.state :=
            {| FileLogger.fileService :=
                 {| MemFS.stored :=
                      MemFS.put Sample.resource "b"
                        (MemFS.put (FileLogger.backupResource Sample.resource 1) first
                           (MemFS.put Sample.resource first
                              (MemFS.put Sample.resource "" (fun _ => None))));
                    MemFS.denied := fun _ => false;
                    MemFS.journal :=
                      [(Sample.resource, first);
                       (FileLogger.backupResource Sample.resource 1, first);
                       (Sample.resource, "b")] |};
               FileLogger.backupIndex := 2 |};
          FileLogger.initializePromise := Some (inr tt);
          FileLogger.queue := [];
          FileLogger.outcomes := [inr tt; inr tt] |}.
Proof.
  intros Hover.
  assert (Hinit : FileLogger.initialize Sample.resource MemFS.empty =
                  (inr tt,
                   {| MemFS.stored := MemFS.put Sample.resource "" (fun _ => None);
                      MemFS.denied := fun _ => false;
                      MemFS.journal := [] |})) by reflexivity.
  assert (Hceiling : strlen "" <= FileLogger.MAX_FILE_SIZE ByteSize_MB) by apply N.le_0_l.
  unfold Sample.then_b.
  cbn [FileLogger.run FileLogger.step FileLogger.log FileLogger.create
       FileLogger.initializePromise FileLogger.queue FileLogger.state
       FileLogger.outcomes FileLogger.fileService FileLogger.backupIndex app].
  rewrite Hinit.
  cbn [FileLogger.run FileLogger.step FileLogger.log FileLogger.create
       FileLogger.initializePromise FileLogger.queue FileLogger.state
       FileLogger.outcomes FileLogger.fileService FileLogger.backupIndex app].
  rewrite (appends_in_memory Sample.resource ByteSize_MB true Sample.clock LogLevel.Info
             first _ 1 ""); [ | reflexivity | apply put_same | exact Hceiling ].
  cbn [FileLogger.run FileLogger.step FileLogger.log FileLogger.create
       FileLogger.initializePromise FileLogger.queue FileLogger.state
       FileLogger.outcomes FileLogger.fileService FileLogger.backupIndex app
       FileLogger.appended String.append MemFS.stored MemFS.denied MemFS.journal].
  rewrite (rotates_in_memory Sample.resource ByteSize_MB true Sample.clock LogLevel.Info
             "b" _ 1 first); [ | reflexivity | reflexivity | apply put_same | exact Hover ].
  reflexivity.
Qed.

Lemma then_b_appends (ByteSize_MB : N) (first : string) :
  strlen first <= FileLogger.MAX_FILE_SIZE ByteSize_MB ->
  FileLogger.run ByteSize_MB Sample.resource true (Sample.then_b first)
    (FileLogger.create MemFS.empty) =
  Some {| FileLogger.state :=
            {| FileLogger.fileService :=
                 {| MemFS.stored :=
                      MemFS.put Sample.resource (first ++ "b")
                        (MemFS.put Sample.resource first
                           (MemFS.put Sample.resource "" (fun _ => None)));
                    MemFS.denied := fun _ => false;
                    MemFS.journal :=
                      [(Sample.resource, first); (Sample.resource, first ++ "b")] |};
               FileLogger.backupIndex := 1 |};
          FileLogger.initializePromise := Some (inr tt);
          FileLogger.queue := [];
          FileLogger.outcomes := [inr tt; inr tt] |}.
Proof.
  intros Hwithin.
  assert (Hinit : FileLogger.initialize Sample.resource MemFS.empty =
                  (inr tt,
                   {| MemFS.stored := MemFS.put Sample.resource "" (fun _ => None);
                      MemFS.denied := fun _ => false;
                      MemFS.journal := [] |})) by reflexivity.
  assert (Hceiling : strlen "" <= FileLogger.MAX_FILE_SIZE ByteSize_MB) by apply N.le_0_l.
  unfold Sample.then_b.
  cbn [FileLogger.run FileLogger.step FileLogger.log FileLogger.create
       FileLogger.initializePromise FileLogger.queue FileLogger.state
       FileLogger.outcomes FileLogger.fileService FileLogger.backupIndex app].
  rewrite Hinit.
  cbn [FileLogger.run FileLogger.step FileLogger.log FileLogger.create
       FileLogger.initializePromise FileLogger.queue FileLogger.state
       FileLogger.outcomes FileLogger.fileService FileLogger.backupIndex app].
  rewrite (appends_in_memory Sample.resource ByteSize_MB true Sample.clock LogLevel.Info
             first _ 1 ""); [ | reflexivity | apply put_same | exact Hceiling ].
  cbn [FileLogger.run FileLogger.step FileLogger.log FileLogger.create
       FileLogger.initializePromise FileLogger.queue FileLogger.state
       FileLogger.outcomes FileLogger.fileService FileLogger.backupIndex app
       FileLogger.appended String.append MemFS.stored MemFS.denied MemFS.journal].
  rewrite (appends_in_memory Sample.resource ByteSize_MB true Sample.clock LogLevel.Info
             "b" _ 1 first); [ | reflexivity | apply put_same | exact Hwithin ].
  reflexivity.
Qed.

Lemma then_b_entries (first : string) :
  concat_strings
    (FileLogger.rendered true
       (FileLogger.clocks (Sample.then_b first))
       (FileLogger.submissions (Sample.then_b first))) = first ++ "b".
Proof. reflexivity. Qed.

(** C1 as stated fails: a message over the ceiling is moved to the backup by
    the next task, so after logging it and then ["b"], both tasks having
    succeeded, the resource holds ["b"] alone and not the two entries one
    after the other. *)
Lemma log_order_counterexample :
  exists lg,
    FileLogger.run MB Sample.resource true (Sample.then_b Sample.oversized)
      (FileLogger.create MemFS.empty) = Some lg /\
    FileLogger.queue lg = [] /\
    FileLogger.outcomes lg = [inr tt; inr tt] /\
    MemFS.stored (FileLogger.fileService (FileLogger.state lg)) Sample.resource = Some "b" /\
    MemFS.stored (FileLogger.fileService (FileLogger.state lg)) Sample.resource <>
    Some (concat_strings
            (FileLogger.rendered true
               (FileLogger.clocks (Sample.then_b Sample.oversized))
               (FileLogger.submissions (Sample.then_b Sample.oversized)))).
Proof.
  assert (Hover : FileLogger.MAX_FILE_SIZE MB < strlen Sample.oversized)
    by (rewrite strlen_oversized; unfold FileLogger.MAX_FILE_SIZE; lia).
  eexists. split; [exact (then_b_rotates MB Sample.oversized Hover)|].
  split; [reflexivity|]. split; [reflexivity|].
  rewrite then_b_entries.
  cbn [FileLogger.state FileLogger.fileService MemFS.stored]. rewrite put_same.
  split; [reflexivity|].
  intros E.
  apply (append_longer Sample.oversized "b" oversized_not_empty).
  exact (f_equal (fun o => match o with Some s => s | None => "" end) E).
Qed.

(** ** Rotation *)

Lemma rotation_in_memory (ByteSize_MB : N) (resource : MemFS.Path)
    (donotUseFormatters : bool) (now : Date) (level : LogLevel) (message : string)
    (fs : MemFS.t) (index : N) (content : string) :
  let slot := if 5 <? index then 1 else index in
  (forall r, MemFS.denied fs r = false) ->
  MemFS.stored fs resource = Some content ->
  FileLogger.MAX_FILE_SIZE ByteSize_MB < strlen content ->
  exists fs',
    FileLogger.logTask ByteSize_MB resource donotUseFormatters (inr tt) now level message
      {| FileLogger.fileService := fs; FileLogger.backupIndex := index |} =
    (inr tt, {| FileLogger.fileService := fs'; FileLogger.backupIndex := slot + 1 |}) /\
    MemFS.stored fs' (FileLogger.backupResource resource slot) = Some content /\
    MemFS.stored fs' resource =
    Some (FileLogger.appended donotUseFormatters now level message).
Proof.
  intros slot Hd Hs Hover. eexists. split.
  - exact (rotates_in_memory resource ByteSize_MB donotUseFormatters now level message
             fs index content (Hd _) (Hd _) Hs Hover).
  - cbn [MemFS.stored]. split.
    + unfold MemFS.put at 1.
      destruct (MemFS.Path_eq_dec resource (FileLogger.backupResource resource slot)) as [E|_].
      * symmetry in E. now apply backupResource_fresh in E.
      * apply put_same.
    + apply put_same.
Qed.

(** C2 (amended).  A write task that loads a content whose length exceeds
    the ceiling first writes that exact content to the current backup
    resource, then writes the new entry alone; a task that loads a content
    within the ceiling (a length equal to it included) writes no backup and
    appends.  On a file service that refuses nothing the backup file then
    holds the content as it was before the rotation, and the resource the new
    entry only.  In particular, with a ceiling of 10: without formatters,
    after an 11-character message the write of ["b"] rotates, backup slot 1
    holds the 11 characters and the resource holds ["b"] only; with
    formatters, after a 10-character message the write of ["b"] rotates,
    backup slot 1 holds the rendered first entry and the resource holds the
    rendering of ["b"] only. *)
Theorem rotation_before_append :
  (forall (URI FS : Type) (resources : IResources URI) (files : IFileService URI FS)
          (ByteSize_MB : N) (resource : URI) (donotUseFormatters : bool)
          (now : Date) (level : LogLevel) (message : string)
          (st : FileLogger.State) (content : string) (fs : FS),
      readFile resource (FileLogger.fileService st) = (inr content, fs) ->
      (FileLogger.MAX_FILE_SIZE ByteSize_MB < strlen content ->
       FileLogger.logTask ByteSize_MB resource donotUseFormatters (inr tt) now level message st =
       (backup <- FileLogger.getBackupResource resource ;;
        _ <- FileLogger.onFileService (writeFile backup content) ;;
        FileLogger.onFileService
          (writeFile resource (FileLogger.appended donotUseFormatters now level message)))
         (FileLogger.after_read st fs)) /\
      (strlen content <= FileLogger.MAX_FILE_SIZE ByteSize_MB ->
       FileLogger.logTask ByteSize_MB resource donotUseFormatters (inr tt) now level message st =
       FileLogger.onFileService
         (writeFile resource
            (content ++ FileLogger.appended donotUseFormatters now level message))
         (FileLogger.after_read st fs))) /\
  (forall (ByteSize_MB : N) (resource : MemFS.Path) (donotUseFormatters : bool)
          (now : Date) (level : LogLevel) (message : string)
          (fs : MemFS.t) (index : N) (content : string),
      (forall r, MemFS.denied fs r = false) ->
      MemFS.stored fs resource = Some content ->
      FileLogger.MAX_FILE_SIZE ByteSize_MB < strlen content ->
      exists fs',
        FileLogger.logTask ByteSize_MB resource donotUseFormatters (inr tt) now level message
          {| FileLogger.fileService := fs; FileLogger.backupIndex := index |} =
        (inr tt,
         {| FileLogger.fileService := fs';
            FileLogger.backupIndex := (if 5 <? index then 1 else index) + 1 |}) /\
        MemFS.stored fs'
          (FileLogger.backupResource resource (if 5 <? index then 1 else index)) =
        Some content /\
        MemFS.stored fs' resource =
        Some (FileLogger.appended donotUseFormatters now level message)) /\
  (exists lg,
      FileLogger.run 2 Sample.resource true (Sample.then_b "aaaaaaaaaaa")
        (FileLogger.create MemFS.empty) = Some lg /\
      MemFS.stored (FileLogger.fileService (FileLogger.state lg))
        (FileLogger.backupResource Sample.resource 1) = Some "aaaaaaaaaaa" /\
      MemFS.stored (FileLogger.fileService (FileLogger.state lg)) Sample.resource =
      Some "b") /\
  (exists lg,
      FileLogger.run 2 Sample.resource false (Sample.then_b "aaaaaaaaaa")
        (FileLogger.create MemFS.empty) = Some lg /\
      MemFS.stored (FileLogger.fileService (FileLogger.state lg))
        (FileLogger.backupResource Sample.resource 1) =
      Some (FileLogger.appended false Sample.clock LogLevel.Info "aaaaaaaaaa") /\
      MemFS.stored (FileLogger.fileService (FileLogger.state lg)) Sample.resource =
      Some (FileLogger.appended false Sample.clock LogLevel.Info "b")).
Proof.
  split; [|split; [|split]]; [| | |eexists; split; [reflexivity|]; split; reflexivity].
  - intros URI FS resources files MB0 resource donot now level message st content fs Hread.
    split; intros H.
    + now apply logTask_rotates.
    + now apply logTask_appends.
  - intros MB0 resource donot now level message fs index content.
    apply rotation_in_memory.
  - eexists. split; [apply then_b_rotates; reflexivity|].
    split; reflexivity.
Qed.

Lemma rotation_before_append_witness :
  exists fs',
    FileLogger.logTask 2 Sample.resource true (inr tt) Sample.clock LogLevel.Info "b"
      {| FileLogger.fileService := MemFS.of_list [(Sample.resource, "aaaaaaaaaaa")];
         FileLogger.backupIndex := 1 |} =
    (inr tt, {| FileLogger.fileService := fs'; FileLogger.backupIndex := 2 |}) /\
    MemFS.stored fs' (FileLogger.backupResource Sample.resource 1) = Some "aaaaaaaaaaa" /\
    MemFS.stored fs' Sample.resource = Some "b".
Proof.
  apply (proj1 (proj2 rotation_before_append) 2 Sample.resource true Sample.clock
           LogLevel.Info "b" (MemFS.of_list [(Sample.resource, "aaaaaaaaaaa")]) 1
           "aaaaaaaaaaa").
  - reflexivity.
  - reflexivity.
  - reflexivity.
Defined.

(** C2 as stated fails on its example: with a ceiling of 10, a content of
    exactly 10 characters does not exceed the ceiling, so the write of ["b"]
    appends and no backup exists; with formatters the backup that the second
    write makes holds the rendered first entry, not the 10 characters.  The
    same happens at the ceiling of 5 MiB with a message of exactly that
    length. *)
Lemma rotation_scenario_counterexample :
  (exists lg,
      FileLogger.run 2 Sample.resource true (Sample.then_b "aaaaaaaaaa")
        (FileLogger.create MemFS.empty) = Some lg /\
      MemFS.stored (FileLogger.fileService (FileLogger.state lg))
        (FileLogger.backupResource Sample.resource 1) = None /\
      MemFS.stored (FileLogger.fileService (FileLogger.state lg)) Sample.resource =
      Some "aaaaaaaaaab") /\
  (exists lg,
      FileLogger.run 2 Sample.resource false (Sample.then_b "aaaaaaaaaa")
        (FileLogger.create MemFS.empty) = Some lg /\
      MemFS.stored (FileLogger.fileService (FileLogger.state lg))
        (FileLogger.backupResource Sample.resource 1) =
      Some (FileLogger.appended false Sample.clock LogLevel.Info "aaaaaaaaaa") /\
      MemFS.stored (FileLogger.fileService (FileLogger.state lg))
        (FileLogger.backupResource Sample.resource 1) <> Some "aaaaaaaaaa") /\
  (exists lg,
      FileLogger.run MB Sample.resource true (Sample.then_b Sample.at_ceiling)
        (FileLogger.create MemFS.empty) = Some lg /\
      strlen Sample.at_ceiling = FileLogger.MAX_FILE_SIZE MB /\
      MemFS.journal (FileLogger.fileService (FileLogger.state lg)) =
      [(Sample.resource, Sample.at_ceiling);
       (Sample.resource, Sample.at_ceiling ++ "b")]).
Proof.
  assert (Hlen : strlen Sample.at_ceiling = FileLogger.MAX_FILE_SIZE MB)
    by apply strlen_replicate.
  split; [|split].
  - eexists. split; [apply then_b_appends; discriminate|]. split; reflexivity.
  - eexists. split; [reflexivity|]. split; [reflexivity|].
    intros E. vm_compute in E. discriminate E.
  - eexists. split; [apply then_b_appends; rewrite Hlen; apply N.le_refl|].
    split; [exact Hlen | reflexivity].
Qed.

(** ** Backup slots *)

Section Slots.
Context {URI FS : Type} {resources : IResources URI}.
Variable resource : URI.

Lemma slot_of_index (index : N) :
  1 <= index <= 6 ->
  (if 5 <? index then 1 else index) = (index - 1) mod 5 + 1.
Proof.
  intros H.
  assert (C : index = 1 \/ index = 2 \/ index = 3 \/ index = 4 \/ index = 5 \/ index = 6)
    by lia.
  destruct C as [->|[->|[->|[->|[->| ->]]]]]; reflexivity.
Qed.

Lemma slot_shift (index k : N) :
  1 <= index <= 6 ->
  ((if 5 <? index then 1 else index) + 1 - 1 + k) mod 5 = (index - 1 + (k + 1)) mod 5.
Proof.
  intros H. rewrite (slot_of_index index H).
  set (m := (index - 1) mod 5).
  replace (m + 1 + 1 - 1 + k) with (m + (1 + k)) by lia.
  subst m. rewrite N.Div0.add_mod_idemp_l. f_equal. lia.
Qed.

(** From any index the constructor or an earlier rotation can leave, the
    slots follow each other modulo 5. *)
Lemma rotations_from (n : nat) :
  forall st : FileLogger.State (FS := FS),
    1 <= FileLogger.backupIndex st <= 6 ->
    fst (FileLogger.rotations resource n st) =
    map (fun k => FileLogger.backupResource resource
                    ((FileLogger.backupIndex st - 1 + N.of_nat k) mod 5 + 1))
        (seq 0 n).
Proof.
  induction n as [|n IH]; intros [fs index] H; [reflexivity|].
  cbn [FileLogger.backupIndex] in H.
  cbn [FileLogger.rotations FileLogger.getBackupResource FileLogger.backupIndex
       FileLogger.fileService seq map].
  specialize (IH {| FileLogger.fileService := fs;
                    FileLogger.backupIndex := (if 5 <? index then 1 else index) + 1 |}).
  destruct (FileLogger.rotations resource n _) as [l st''].
  cbn [fst] in *. f_equal.
  - unfold FileLogger.backupResource. rewrite N.add_0_r, <- slot_of_index by exact H.
    reflexivity.
  - rewrite IH.
    + rewrite <- seq_shift, map_map. apply map_ext. intros k.
      cbn [FileLogger.backupIndex]. f_equal. f_equal.
      rewrite slot_shift by exact H. f_equal. lia.
    + cbn [FileLogger.backupIndex]. destruct (5 <? index) eqn:E; [lia|].
      apply N.ltb_ge in E. lia.
Qed.
End Slots.

(** C3.  From the backup index a new logger starts with, six consecutive
    rotations name the backups [<dirname>/<basename>_<slot>] with the slots
    1, 2, 3, 4, 5, 1 in that order; in general the rotation after [k]
    earlier ones uses slot [k mod 5 + 1], so the slot cycles through 1..5;
    and the write of a rotation replaces whatever the backup of that slot
    held before. *)
Theorem backup_slots_cycle :
  (forall (URI FS : Type) (resources : IResources URI) (resource : URI) (fs : FS),
      fst (FileLogger.rotations resource 6 (FileLogger.state (FileLogger.create fs))) =
      map (fun slot => joinPath (dirname resource) (basename resource ++ "_" ++ dec slot))
          [1; 2; 3; 4; 5; 1]) /\
  (forall (URI FS : Type) (resources : IResources URI) (resource : URI) (fs : FS) (n : nat),
      fst (FileLogger.rotations resource n (FileLogger.state (FileLogger.create fs))) =
      map (fun k => joinPath (dirname resource)
                      (basename resource ++ "_" ++ dec (N.of_nat k mod 5 + 1)))
          (seq 0 n)) /\
  (forall (ByteSize_MB : N) (resource : MemFS.Path) (donotUseFormatters : bool)
          (now : Date) (level : LogLevel) (message : string)
          (fs : MemFS.t) (index : N) (content earlier : string),
      (forall r, MemFS.denied fs r = false) ->
      MemFS.stored fs resource = Some content ->
      FileLogger.MAX_FILE_SIZE ByteSize_MB < strlen content ->
      MemFS.stored fs
        (FileLogger.backupResource resource (if 5 <? index then 1 else index)) =
      Some earlier ->
      exists fs',
        FileLogger.logTask ByteSize_MB resource donotUseFormatters (inr tt) now level message
          {| FileLogger.fileService := fs; FileLogger.backupIndex := index |} =
        (inr tt,
         {| FileLogger.fileService := fs';
            FileLogger.backupIndex := (if 5 <? index then 1 else index) + 1 |}) /\
        MemFS.stored fs'
          (FileLogger.backupResource resource (if 5 <? index then 1 else index)) =
        Some content).
Proof.
  split; [|split].
  - intros URI FS resources resource fs.
    rewrite rotations_from by (cbn; lia). reflexivity.
  - intros URI FS resources resource fs n.
    rewrite rotations_from by (cbn; lia). apply map_ext. intros k.
    cbn [FileLogger.create FileLogger.state FileLogger.backupIndex].
    unfold FileLogger.backupResource. now rewrite N.sub_diag, N.add_0_l.
  - intros MB0 resource donot now level message fs index content earlier Hd Hs Hover _.
    destruct (rotation_in_memory MB0 resource donot now level message fs index content
                Hd Hs Hover) as (fs' & Hrun & Hbackup & _).
    exists fs'. split; assumption.
Qed.

Lemma backup_slots_cycle_witness :
  exists fs',
    FileLogger.logTask 2 Sample.resource true (inr tt) Sample.clock LogLevel.Info "b"
      {| FileLogger.fileService :=
           MemFS.of_list [(Sample.resource, "aaaaaaaaaaa"); (["logs"; "main.log_1"], "old")];
         FileLogger.backupIndex := 6 |} =
    (inr tt, {| FileLogger.fileService := fs'; FileLogger.backupIndex := 2 |}) /\
    MemFS.stored fs' ["logs"; "main.log_1"] = Some "aaaaaaaaaaa".
Proof.
  apply (proj2 (proj2 backup_slots_cycle) 2 Sample.resource true Sample.clock
           LogLevel.Info "b"
           (MemFS.of_list [(Sample.resource, "aaaaaaaaaaa"); (["logs"; "main.log_1"], "old")])
           6 "aaaaaaaaaaa" "old").
  - reflexivity.
  - reflexivity.
  - reflexivity.
  - reflexivity.
Defined.

Example backup_names :
  fst (FileLogger.rotations Sample.resource 6
         (FileLogger.state (FileLogger.create MemFS.empty))) =
  [["logs"; "main.log_1"]; ["logs"; "main.log_2"]; ["logs"; "main.log_3"];
   ["logs"; "main.log_4"]; ["logs"; "main.log_5"]; ["logs"; "main.log_1"]].
Proof. reflexivity. Qed.

(** ** The format of an entry *)

Lemma toTwoDigits_padded (v : N) :
  v < 100 ->
  FileLogger.toTwoDigits v = Format.zero_padded 2 v /\
  String.length (FileLogger.toTwoDigits v) = 2%nat.
Proof.
  intros H.
  pose proof (checked_below
    (fun v => String.eqb (FileLogger.toTwoDigits v) (Format.zero_padded 2 v) &&
              Nat.eqb (String.length (FileLogger.toTwoDigits v)) 2)
    100 ltac:(vm_compute; reflexivity) v H) as C.
  cbv beta in C. apply andb_prop in C. destruct C as [C1 C2].
  split; [now apply String.eqb_eq | now apply Nat.eqb_eq].
Qed.

Lemma toThreeDigits_padded (v : N) :
  v < 1000 ->
  FileLogger.toThreeDigits v = Format.zero_padded 3 v /\
  String.length (FileLogger.toThreeDigits v) = 3%nat.
Proof.
  intros H.
  pose proof (checked_below
    (fun v => String.eqb (FileLogger.toThreeDigits v) (Format.zero_padded 3 v) &&
              Nat.eqb (String.length (FileLogger.toThreeDigits v)) 3)
    1000 ltac:(vm_compute; reflexivity) v H) as C.
  cbv beta in C. apply andb_prop in C. destruct C as [C1 C2].
  split; [now apply String.eqb_eq | now apply Nat.eqb_eq].
Qed.

Lemma in_range_bounds (t : Date) :
  Format.in_range t = true ->
  getMonth t + 1 < 100 /\ getDate t < 100 /\ getHours t < 100 /\
  getMinutes t < 100 /\ getSeconds t < 100 /\ getMilliseconds t < 1000.
Proof.
  unfold Format.in_range. rewrite !andb_true_iff, !N.leb_le. lia.
Qed.

Lemma timestamp_format (t : Date) :
  Format.in_range t = true ->
  FileLogger.getCurrentTimestamp t = Format.timestamp t.
Proof.
  intros H. apply in_range_bounds in H.
  destruct H as (Hmo & Hd & Hh & Hmi & Hs & Hms).
  unfold FileLogger.getCurrentTimestamp, Format.timestamp.
  rewrite (proj1 (toTwoDigits_padded _ Hmo)), (proj1 (toTwoDigits_padded _ Hd)),
    (proj1 (toTwoDigits_padded _ Hh)), (proj1 (toTwoDigits_padded _ Hmi)),
    (proj1 (toTwoDigits_padded _ Hs)), (proj1 (toThreeDigits_padded _ Hms)).
  reflexivity.
Qed.

Lemma timestamp_length (t : Date) :
  Format.in_range t = true ->
  String.length (Format.timestamp t) =
  (String.length (dec (getFullYear t)) + 19)%nat.
Proof.
  intros H. rewrite <- (timestamp_format t H). apply in_range_bounds in H.
  destruct H as (Hmo & Hd & Hh & Hmi & Hs & Hms).
  unfold FileLogger.getCurrentTimestamp.
  rewrite !length_append.
  rewrite (proj2 (toTwoDigits_padded _ Hmo)), (proj2 (toTwoDigits_padded _ Hd)),
    (proj2 (toTwoDigits_padded _ Hh)), (proj2 (toTwoDigits_padded _ Hmi)),
    (proj2 (toTwoDigits_padded _ Hs)), (proj2 (toThreeDigits_padded _ Hms)).
  reflexivity.
Qed.

Lemma levelname_format (level : LogLevel) :
  FileLogger.stringifyLogLevel level = Format.levelname level.
Proof. destruct level; reflexivity. Qed.

(** C4.  With [donotUseFormatters] set, a task appends exactly the raw
    message to the content it starts from, so logging ["x"] then ["y"] into
    a new file leaves exactly ["xy"]; otherwise it appends
    [YYYY-MM-DD HH:MM:SS.mmm [levelname] message\\n], the date and time fields
    padded with zeros to two digits and the milliseconds to three (so the
    timestamp is the digits of the year and 19 more characters), with the
    lower-case level name, which is empty for [Off]. *)
Theorem entry_format :
  (forall (now : Date) (level : LogLevel) (message : string),
      FileLogger.appended true now level message = message) /\
  (forall (now : Date) (level : LogLevel) (message : string),
      Format.in_range now = true ->
      FileLogger.appended false now level message = Format.entry now level message /\
      String.length (Format.timestamp now) =
      (String.length (dec (getFullYear now)) + 19)%nat) /\
  (forall level : LogLevel,
      FileLogger.stringifyLogLevel level = Format.levelname level /\
      (level = LogLevel.Off -> FileLogger.stringifyLogLevel level = "")) /\
  (forall (URI FS : Type) (resources : IResources URI) (files : IFileService URI FS)
          (ByteSize_MB : N) (resource : URI) (donotUseFormatters : bool)
          (now : Date) (level : LogLevel) (message : string)
          (st : FileLogger.State) (content : string) (fs : FS),
      Format.in_range now = true ->
      readFile resource (FileLogger.fileService st) = (inr content, fs) ->
      strlen content <= FileLogger.MAX_FILE_SIZE ByteSize_MB ->
      FileLogger.logTask ByteSize_MB resource donotUseFormatters (inr tt) now level message st =
      FileLogger.onFileService
        (writeFile resource
           (content ++ (if donotUseFormatters then message
                        else Format.entry now level message)))
        (FileLogger.after_read st fs)) /\
  (exists lg,
      FileLogger.run MB Sample.resource true Sample.two_messages
        (FileLogger.create MemFS.empty) = Some lg /\
      FileLogger.outcomes lg = [inr tt; inr tt] /\
      MemFS.stored (FileLogger.fileService (FileLogger.state lg)) Sample.resource =
      Some "xy").
Proof.
  assert (Hentry : forall now level message,
             Format.in_range now = true ->
             FileLogger.appended false now level message = Format.entry now level message).
  { intros now level message H. unfold FileLogger.appended, Format.entry.
    now rewrite (timestamp_format now H), levelname_format. }
  split; [reflexivity|]. split; [|split; [|split]].
  - intros now level message H. split; [now apply Hentry|].
    now apply timestamp_length.
  - intros level. split; [apply levelname_format|]. now intros ->.
  - intros URI FS resources files MB0 resource donot now level message st content fs
           Hrange Hread Hwithin.
    rewrite (logTask_appends MB0 resource donot now level message st content fs Hread Hwithin).
    destruct donot; [reflexivity|]. now rewrite Hentry.
  - eexists. split; [reflexivity|]. split; reflexivity.
Qed.

Lemma entry_format_witness :
  FileLogger.appended false Sample.clock LogLevel.Warning "disk is full" =
  "2023-02-07 09:05:00.042 [warning] disk is full" ++ LF.
Proof.
  exact (eq_trans
           (proj1 (proj1 (proj2 entry_format) Sample.clock LogLevel.Warning "disk is full"
                    eq_refl))
           eq_refl).
Defined.

(** ** Failures of the file service *)

(** C5.  When reading the resource fails, with whatever error, the content
    is taken to be empty: the task writes no backup and does exactly one
    write, of the newly rendered entry alone, to the resource, and settles
    as that write does - so it succeeds whenever the write does, and a
    resource that was missing then holds exactly the entry. *)
Theorem read_failure_is_absorbed :
  (forall (URI FS : Type) (resources : IResources URI) (files : IFileService URI FS)
          (ByteSize_MB : N) (resource : URI) (donotUseFormatters : bool)
          (now : Date) (level : LogLevel) (message : string)
          (st : FileLogger.State) (error : Thrown) (fs : FS),
      readFile resource (FileLogger.fileService st) = (inl error, fs) ->
      FileLogger.loadContent resource (FileLogger.fileService st) = (inr "", fs) /\
      FileLogger.logTask ByteSize_MB resource donotUseFormatters (inr tt) now level message st =
      FileLogger.onFileService
        (writeFile resource (FileLogger.appended donotUseFormatters now level message))
        (FileLogger.after_read st fs) /\
      (forall fs',
          writeFile resource (FileLogger.appended donotUseFormatters now level message) fs =
          (inr tt, fs') ->
          FileLogger.logTask ByteSize_MB resource donotUseFormatters (inr tt) now level message st =
          (inr tt, FileLogger.after_read st fs'))) /\
  (forall (ByteSize_MB : N) (resource : MemFS.Path) (donotUseFormatters : bool)
          (now : Date) (level : LogLevel) (message : string)
          (fs : MemFS.t) (index : N),
      MemFS.denied fs resource = false ->
      MemFS.stored fs resource = None ->
      exists fs',
        FileLogger.logTask ByteSize_MB resource donotUseFormatters (inr tt) now level message
          {| FileLogger.fileService := fs; FileLogger.backupIndex := index |} =
        (inr tt, {| FileLogger.fileService := fs'; FileLogger.backupIndex := index |}) /\
        MemFS.stored fs' resource =
        Some (FileLogger.appended donotUseFormatters now level message) /\
        MemFS.journal fs' =
        (MemFS.journal fs ++
         [(resource, FileLogger.appended donotUseFormatters now level message)])%list).
Proof.
  split.
  - intros URI FS resources files MB0 resource donot now level message st error fs Hread.
    assert (Htask := logTask_read_failed MB0 resource donot now level message st error fs Hread).
    split; [|split].
    + unfold FileLogger.loadContent, try_catch. now rewrite Hread.
    + exact Htask.
    + intros fs' Hwrite. rewrite Htask. unfold FileLogger.onFileService.
      cbn [FileLogger.after_read FileLogger.fileService FileLogger.backupIndex].
      now rewrite Hwrite.
  - intros MB0 resource donot now level message fs index Hd Hs.
    eexists.
    rewrite (logTask_read_failed MB0 resource donot now level message _
               (FileOperationError FILE_NOT_FOUND) fs).
    + unfold FileLogger.onFileService.
      cbn [FileLogger.after_read FileLogger.fileService FileLogger.backupIndex
           writeFile MemFS.service].
      unfold MemFS.write. rewrite Hd. split; [reflexivity|].
      cbn [MemFS.stored MemFS.journal]. split; [apply put_same | reflexivity].
    + cbn [FileLogger.fileService readFile MemFS.service]. unfold MemFS.read.
      now rewrite Hd, Hs.
Qed.

Lemma read_failure_is_absorbed_witness :
  exists fs',
    FileLogger.logTask MB Sample.resource true (inr tt) Sample.clock LogLevel.Info "x"
      {| FileLogger.fileService := MemFS.empty; FileLogger.backupIndex := 1 |} =
    (inr tt, {| FileLogger.fileService := fs'; FileLogger.backupIndex := 1 |}) /\
    MemFS.stored fs' Sample.resource = Some "x" /\
    MemFS.journal fs' = [(Sample.resource, "x")].
Proof.
  apply (proj2 read_failure_is_absorbed MB Sample.resource true Sample.clock
           LogLevel.Info "x" MemFS.empty 1).
  - reflexivity.
  - reflexivity.
Defined.

(** C6.  [initialize] succeeds when the creation does; it swallows the
    failure of the creation whose result code is [FILE_MODIFIED_SINCE], and
    only that one: a failure with any other result code, or with none,
    rejects the initialization promise with the same error, and the first
    task that runs - as every later one - is then rejected with that error
    without touching the file system; the initialization itself never
    fails with the swallowed code.  So on the in-memory file service,
    which answers the creation of an existing resource with that code,
    initializing a second time, or over a resource that exists already, does
    not fail and leaves the content as it is. *)
Theorem initialize_swallows_modified_since_only :
  (forall (URI FS : Type) (files : IFileService URI FS) (resource : URI) (fs fs' : FS),
      createFile resource fs = (inr tt, fs') ->
      FileLogger.initialize resource fs = (inr tt, fs')) /\
  (forall (URI FS : Type) (files : IFileService URI FS) (resource : URI) (fs fs' : FS)
          (error : Thrown),
      createFile resource fs = (inl error, fs') ->
      (fileOperationResult error = Some FILE_MODIFIED_SINCE ->
       FileLogger.initialize resource fs = (inr tt, fs')) /\
      (fileOperationResult error <> Some FILE_MODIFIED_SINCE ->
       FileLogger.initialize resource fs = (inl error, fs') /\
       forall (resources : IResources URI) (ByteSize_MB : N) (donotUseFormatters : bool)
              (level : LogLevel) (message : string) (now : Date),
         FileLogger.run ByteSize_MB resource donotUseFormatters
           [FileLogger.Submit level message; FileLogger.InitializeSettles;
            FileLogger.RunTask now]
           (FileLogger.create fs) =
         Some {| FileLogger.state :=
                   {| FileLogger.fileService := fs'; FileLogger.backupIndex := 1 |};
                 FileLogger.initializePromise := Some (inl error);
                 FileLogger.queue := [];
                 FileLogger.outcomes := [inl error] |})) /\
  (forall (URI FS : Type) (resources : IResources URI) (files : IFileService URI FS)
          (ByteSize_MB : N) (resource : URI) (donotUseFormatters : bool)
          (error : Thrown) (now : Date) (level : LogLevel) (message : string)
          (st : FileLogger.State),
      FileLogger.logTask ByteSize_MB resource donotUseFormatters (inl error) now level message st =
      (inl error, st)) /\
  (forall (URI FS : Type) (files : IFileService URI FS) (resource : URI) (fs fs' : FS)
          (error : Thrown),
      FileLogger.initialize resource fs = (inl error, fs') ->
      fileOperationResult error <> Some FILE_MODIFIED_SINCE) /\
  (forall (resource : MemFS.Path) (fs : MemFS.t) (content : string),
      MemFS.denied fs resource = false ->
      MemFS.stored fs resource = Some content ->
      FileLogger.initialize resource fs = (inr tt, fs)) /\
  (forall (resource : MemFS.Path) (fs : MemFS.t),
      MemFS.denied fs resource = false ->
      exists fs',
        FileLogger.initialize resource fs = (inr tt, fs') /\
        FileLogger.initialize resource fs' = (inr tt, fs')).
Proof.
  split; [|split; [|split; [|split; [|split]]]];
    [| | |intros URI FS files resource fs fs' error; apply initialize_rejection| |].
  - intros URI FS files resource fs fs' H. now apply initialize_created.
  - intros URI FS files resource fs fs' error H. split; intros E.
    + now apply initialize_swallowed with (error := error).
    + pose proof (initialize_rethrown resource fs fs' error H E) as Hinit.
      split; [exact Hinit|].
      intros resources MB0 donot level message now.
      cbn [FileLogger.run FileLogger.step FileLogger.log FileLogger.create
           FileLogger.initializePromise FileLogger.queue FileLogger.state
           FileLogger.outcomes FileLogger.fileService FileLogger.backupIndex app].
      rewrite Hinit.
      cbn [FileLogger.run FileLogger.step FileLogger.initializePromise FileLogger.queue
           FileLogger.state FileLogger.outcomes app].
      rewrite logTask_rejected. reflexivity.
  - intros. apply logTask_rejected.
  - intros resource fs content Hd Hs.
    apply initialize_swallowed with (error := FileOperationError FILE_MODIFIED_SINCE);
      [|reflexivity].
    cbn [createFile MemFS.service]. unfold MemFS.create. now rewrite Hd, Hs.
  - intros resource fs Hd.
    destruct (initialize_in_memory resource fs Hd) as (fs' & H1 & Hs & _ & Hden & _).
    exists fs'. split; [exact H1|].
    apply initialize_swallowed with (error := FileOperationError FILE_MODIFIED_SINCE);
      [|reflexivity].
    cbn [createFile MemFS.service]. unfold MemFS.create. now rewrite Hden, Hd, Hs.
Qed.

Lemma initialize_swallows_modified_since_only_witness :
  FileLogger.initialize Sample.resource (MemFS.of_list [(Sample.resource, "old")]) =
  (inr tt, MemFS.of_list [(Sample.resource, "old")]) /\
  FileLogger.run MB Sample.resource true
    [FileLogger.Submit LogLevel.Info "x"; FileLogger.InitializeSettles;
     FileLogger.RunTask Sample.clock]
    (FileLogger.create (MemFS.deny Sample.resource MemFS.empty)) =
  Some {| FileLogger.state :=
            {| FileLogger.fileService := MemFS.deny Sample.resource MemFS.empty;
               FileLogger.backupIndex := 1 |};
          FileLogger.initializePromise :=
            Some (inl (FileOperationError FILE_PERMISSION_DENIED));
          FileLogger.queue := [];
          FileLogger.outcomes := [inl (FileOperationError FILE_PERMISSION_DENIED)] |}.
Proof.
  split.
  - apply (proj1 (proj2 (proj2 (proj2 (proj2 initialize_swallows_modified_since_only))))
             Sample.resource (MemFS.of_list [(Sample.resource, "old")]) "old");
      reflexivity.
  - apply (proj2 (proj1 (proj2 initialize_swallows_modified_since_only)
                    MemFS.Path MemFS.t MemFS.service Sample.resource
                    (MemFS.deny Sample.resource MemFS.empty)
                    (MemFS.deny Sample.resource MemFS.empty)
                    (FileOperationError FILE_PERMISSION_DENIED) eq_refl)).
    discriminate.
Defined.

(** ** The channel client *)

Section LoggerChannelClientFacts.
Context {URI : Type}.
Variable URI_revive : URI -> URI.
Context {ILoggerOptions LoggerInfo Directory : Type}.
Variable windowId : option N.

Let Client :=
  LogIpc.LoggerChannelClient
    (URI := URI) (ILoggerOptions := ILoggerOptions) (LoggerInfo := LoggerInfo)
    (Directory := Directory).
Let Method :=
  LogIpc.Method
    (URI := URI) (ILoggerOptions := ILoggerOptions) (LoggerInfo := LoggerInfo)
    (Directory := Directory).
Let Body :=
  LogIpc.Body
    (URI := URI) (ILoggerOptions := ILoggerOptions) (LoggerInfo := LoggerInfo)
    (Directory := Directory).
Let RemoteEvent := LogIpc.RemoteEvent (URI := URI) (LoggerInfo := LoggerInfo).
Let LocalCall := LogIpc.LocalCall (URI := URI) (LoggerInfo := LoggerInfo).

Variable super_registerLogger :
  LogIpc.ILoggerResource (URI := URI) (LoggerInfo := LoggerInfo) -> Body.
Variable super_deregisterLogger : URI -> Body.
Variable super_setLogLevel : URI -> LogLevel -> Body.
Variable super_setVisibility : URI -> bool -> Body.

Let super : LocalCall -> Body :=
  LogIpc.super
    super_registerLogger super_deregisterLogger super_setLogLevel super_setVisibility.
Let receive : (LocalCall -> Method) -> RemoteEvent -> Method :=
  LogIpc.receive URI_revive
    super_registerLogger super_deregisterLogger super_setLogLevel super_setVisibility.
Let invoke : (LocalCall -> Method) -> LocalCall -> Method :=
  LogIpc.invoke windowId
    super_registerLogger super_deregisterLogger super_setLogLevel super_setVisibility.
Let this_at : nat -> LocalCall -> Method :=
  LogIpc.this_at windowId
    super_registerLogger super_deregisterLogger super_setLogLevel super_setVisibility.
Let perform_all : (LocalCall -> Method) -> list (RemoteEvent + LocalCall) -> Method :=
  LogIpc.perform_all URI_revive windowId
    super_registerLogger super_deregisterLogger super_setLogLevel super_setVisibility.
Let mutation_of_event :=
  LogIpc.mutation_of_event URI_revive
    super_registerLogger super_deregisterLogger super_setLogLevel super_setVisibility.
Let mutation_of_call :=
  LogIpc.mutation_of_call
    super_registerLogger super_deregisterLogger super_setLogLevel super_setVisibility.
Let mutation_of :=
  LogIpc.mutation_of URI_revive
    super_registerLogger super_deregisterLogger super_setLogLevel super_setVisibility.
Let forwarded :=
  LogIpc.forwarded (URI := URI) (ILoggerOptions := ILoggerOptions)
    (LoggerInfo := LoggerInfo) windowId.

(** A body that calls no method on [this] that uses the channel changes the
    state of the superclass and leaves the channel alone, whatever the
    methods of [this] are. *)
Lemma run_super_quiet (b : Body) :
  LogIpc.quiet b ->
  forall (this : LocalCall -> Method) (c : Client),
    LogIpc.run_super this b c =
    Some {| LogIpc.directory := LogIpc.mutation b (LogIpc.directory c);
            LogIpc.channel := LogIpc.channel c |}.
Proof.
  induction 1 as [|rest _ IH|d rest _ IH]; intros this c; cbn [LogIpc.run_super LogIpc.mutation].
  - now destruct c.
  - apply IH.
  - rewrite IH. reflexivity.
Qed.

Lemma for_each_quiet {A : Type} (f : A -> Body) (this : LocalCall -> Method) :
  (forall a, LogIpc.quiet (f a)) ->
  forall (l : list A) (c : Client),
    LogIpc.for_each l (fun a => LogIpc.run_super this (f a)) c =
    Some {| LogIpc.directory :=
              fold_left (fun d a => LogIpc.mutation (f a) d) l (LogIpc.directory c);
            LogIpc.channel := LogIpc.channel c |}.
Proof.
  intros Hf l. induction l as [|a l IH]; intros c.
  - now destruct c.
  - cbn [LogIpc.for_each fold_left]. unfold LogIpc.and_then.
    rewrite (run_super_quiet _ (Hf a)), IH. reflexivity.
Qed.

Section Quiet.
Hypothesis super_quiet : forall call : LocalCall, LogIpc.quiet (super call).

Lemma receive_effect (this : LocalCall -> Method) (ev : RemoteEvent) (c : Client) :
  receive this ev c =
  Some {| LogIpc.directory := mutation_of_event ev (LogIpc.directory c);
          LogIpc.channel := LogIpc.channel c |}.
Proof.
  destruct ev as [[resource logLevel]|[resource visibility]|ev].
  - exact (run_super_quiet _ (super_quiet (LogIpc.SetLogLevel (URI_revive resource) logLevel))
             this c).
  - exact (run_super_quiet _
             (super_quiet (LogIpc.SetVisibility (URI_revive resource) visibility)) this c).
  - unfold receive, LogIpc.receive, LogIpc.onDidChangeLoggers, LogIpc.and_then.
    rewrite (for_each_quiet
               (fun l => super_registerLogger
                           {| LogIpc.resource := URI_revive (LogIpc.resource l);
                              LogIpc.info := LogIpc.info l |}) this
               (fun l => super_quiet (LogIpc.RegisterLogger _))).
    rewrite (for_each_quiet (fun l => super_deregisterLogger (LogIpc.resource l)) this
               (fun l => super_quiet (LogIpc.DeregisterLogger _))).
    reflexivity.
Qed.

Lemma invoke_effect (this : LocalCall -> Method) (call : LocalCall) (c : Client) :
  invoke this call c =
  Some {| LogIpc.directory := mutation_of_call call (LogIpc.directory c);
          LogIpc.channel := (LogIpc.channel c ++ [forwarded call])%list |}.
Proof.
  pose proof (run_super_quiet _ (super_quiet call) this c) as H.
  destruct call; cbn [super LogIpc.super] in H;
    unfold invoke, LogIpc.invoke, LogIpc.registerLogger, LogIpc.deregisterLogger,
      LogIpc.setLogLevel, LogIpc.setVisibility, LogIpc.and_then;
    rewrite H; reflexivity.
Qed.

Lemma perform_all_effect (this : LocalCall -> Method) (l : list (RemoteEvent + LocalCall)) :
  forall c : Client,
    perform_all this l c =
    Some {| LogIpc.directory :=
              fold_left (fun d a => mutation_of a d) l (LogIpc.directory c);
            LogIpc.channel :=
              (LogIpc.channel c ++ map forwarded (LogIpc.local_calls l))%list |}.
Proof.
  induction l as [|a l IH]; intros c.
  - cbn. rewrite app_nil_r. now destruct c.
  - assert (Hstep : forall c',
               LogIpc.perform URI_revive windowId super_registerLogger super_deregisterLogger
                 super_setLogLevel super_setVisibility this a c = Some c' ->
               perform_all this (a :: l) c = perform_all this l c').
    { intros c' H. unfold perform_all, LogIpc.perform_all.
      cbn [LogIpc.for_each]. unfold LogIpc.and_then at 1. now rewrite H. }
    destruct a as [ev|call]; cbn [LogIpc.perform] in Hstep.
    + rewrite (Hstep _ (receive_effect this ev c)), IH. reflexivity.
    + rewrite (Hstep _ (invoke_effect this call c)), IH.
      cbn [LogIpc.directory LogIpc.channel LogIpc.local_calls flat_map app map fold_left].
      now rewrite <- app_assoc.
Qed.
End Quiet.


End LoggerChannelClientFacts.

Lemma registry_in_place_quiet :
  forall call : LogIpc.LocalCall (URI := string) (LoggerInfo := bool),
    LogIpc.quiet
      (LogIpc.super Registry.registerLogger_in_place Registry.deregisterLogger
         Registry.setLogLevel Registry.setVisibility call).
Proof.
  intros [logger|resource|resource logLevel|resource visibility];
    cbn [LogIpc.super]; repeat constructor.
  intros d. destruct (Registry.hidden_of (LogIpc.resource logger) d); repeat constructor.
Defined.



(** ** The remote proxy logger *)

Section LoggerFacts.
Context {URI ILoggerOptions LoggerInfo : Type}.
Variable file : URI.
Variable loggerOptions : option ILoggerOptions.

Let Logger :=
  LogIpc.Logger (URI := URI) (ILoggerOptions := ILoggerOptions) (LoggerInfo := LoggerInfo).
Let IChannel :=
  LogIpc.IChannel (URI := URI) (ILoggerOptions := ILoggerOptions) (LoggerInfo := LoggerInfo).
Let create : IChannel -> Logger := LogIpc.create file loggerOptions.
Let step : LogIpc.LoggerEvent -> Logger -> option Logger := LogIpc.logger_step file.
Let run : list LogIpc.LoggerEvent -> Logger -> option Logger := LogIpc.logger_run file.
Let call_log (messages : list (LogLevel * string)) : LogIpc.Call :=
  LogIpc.call_log (ILoggerOptions := ILoggerOptions) (LoggerInfo := LoggerInfo) file messages.

Lemma delivered_app (a b : IChannel) :
  LogIpc.delivered (a ++ b)%list = (LogIpc.delivered a ++ LogIpc.delivered b)%list.
Proof. apply flat_map_app. Qed.

Lemma run_app (evs1 evs2 : list LogIpc.LoggerEvent) :
  forall lg : Logger,
    run (evs1 ++ evs2)%list lg =
    match run evs1 lg with
    | Some lg' => run evs2 lg'
    | None => None
    end.
Proof.
  induction evs1 as [|ev evs1 IH]; intros lg; [reflexivity|].
  unfold run in *. cbn [app LogIpc.logger_run].
  destruct (LogIpc.logger_step file ev lg); [apply IH | reflexivity].
Qed.

(** Before the creation settles, logging only fills the buffer. *)
Lemma run_buffering (messages : list (LogLevel * string)) :
  forall (held : list (LogLevel * string)) (channel : IChannel) (c : LogIpc.Creation),
    run (LogIpc.logs messages)
      {| LogIpc.isLoggerCreated := false; LogIpc.buffer := held;
         LogIpc.logger_channel := channel; LogIpc.creation := c |} =
    Some {| LogIpc.isLoggerCreated := false; LogIpc.buffer := (held ++ messages)%list;
            LogIpc.logger_channel := channel; LogIpc.creation := c |}.
Proof.
  induction messages as [|[level message] messages IH]; intros held channel c.
  - cbn. now rewrite app_nil_r.
  - unfold run in *. cbn [LogIpc.logs map LogIpc.logger_run LogIpc.logger_step LogIpc.log
                          LogIpc.isLoggerCreated LogIpc.buffer LogIpc.logger_channel
                          LogIpc.creation fst snd].
    fold (LogIpc.logs messages). rewrite IH. now rewrite <- app_assoc.
Qed.

(** After the switch, each message goes out in a call of its own. *)
Lemma run_forwarding (messages : list (LogLevel * string)) :
  forall (held : list (LogLevel * string)) (channel : IChannel) (c : LogIpc.Creation),
    run (LogIpc.logs messages)
      {| LogIpc.isLoggerCreated := true; LogIpc.buffer := held;
         LogIpc.logger_channel := channel; LogIpc.creation := c |} =
    Some {| LogIpc.isLoggerCreated := true; LogIpc.buffer := held;
            LogIpc.logger_channel := (channel ++ map (fun m => call_log [m]) messages)%list;
            LogIpc.creation := c |}.
Proof.
  induction messages as [|[level message] messages IH]; intros held channel c.
  - cbn. now rewrite app_nil_r.
  - unfold run in *. cbn [LogIpc.logs map LogIpc.logger_run LogIpc.logger_step LogIpc.log
                          LogIpc.doLog LogIpc.channel_call
                          LogIpc.isLoggerCreated LogIpc.buffer LogIpc.logger_channel
                          LogIpc.creation fst snd].
    fold (LogIpc.logs messages). unfold LogIpc.doLog, LogIpc.channel_call.
    cbn [LogIpc.isLoggerCreated LogIpc.buffer LogIpc.logger_channel LogIpc.creation].
    rewrite IH. now rewrite <- app_assoc.
Qed.

Lemma delivered_log (channel : IChannel) (messages : list (LogLevel * string)) :
  LogIpc.delivered (channel ++ [call_log messages])%list =
  (LogIpc.delivered channel ++ messages)%list.
Proof. rewrite delivered_app. cbn. now rewrite app_nil_r. Qed.

Lemma step_accepted (ev : LogIpc.LoggerEvent) (lg lg' : Logger) :
  LogIpc.consistent lg ->
  step ev lg = Some lg' ->
  LogIpc.consistent lg' /\
  LogIpc.accepted lg' = (LogIpc.accepted lg ++ LogIpc.arrivals [ev])%list /\
  (LogIpc.isLoggerCreated lg' = false ->
   LogIpc.isLoggerCreated lg = false /\
   LogIpc.logger_channel lg' = LogIpc.logger_channel lg).
Proof.
  destruct lg as [flag held channel c].
  unfold LogIpc.consistent, LogIpc.accepted, step, LogIpc.logger_step, LogIpc.log,
    LogIpc.onCreated, LogIpc.doLog, LogIpc.channel_call.
  cbn [LogIpc.isLoggerCreated LogIpc.buffer LogIpc.logger_channel LogIpc.creation].
  intros Hc. destruct ev as [level message| |].
  - destruct flag; intros H; inversion H; subst; clear H;
      cbn [LogIpc.isLoggerCreated LogIpc.buffer LogIpc.logger_channel LogIpc.creation
           LogIpc.arrivals flat_map app].
    + fold (call_log [(level, message)]). rewrite delivered_log, !app_nil_r.
      refine (conj Hc (conj eq_refl _)). discriminate.
    + rewrite app_assoc. refine (conj Hc (conj eq_refl _)). auto.
  - destruct c; try discriminate. intros H; inversion H; subst; clear H.
    cbn [LogIpc.isLoggerCreated LogIpc.buffer LogIpc.logger_channel LogIpc.creation
         LogIpc.arrivals flat_map app].
    fold (call_log held). rewrite delivered_log, !app_nil_r.
    destruct flag.
    + destruct Hc as [Hc _]. discriminate (Hc eq_refl).
    + refine (conj _ (conj eq_refl _)); [split; reflexivity | discriminate].
  - destruct c; try discriminate. intros H; inversion H; subst; clear H.
    cbn [LogIpc.isLoggerCreated LogIpc.buffer LogIpc.logger_channel LogIpc.creation
         LogIpc.arrivals flat_map app].
    rewrite app_nil_r. destruct flag.
    + destruct Hc as [Hc _]. discriminate (Hc eq_refl).
    + refine (conj _ (conj eq_refl _)); [split; discriminate | auto].
Qed.

Lemma run_accepted (evs : list LogIpc.LoggerEvent) :
  forall lg lg' : Logger,
    LogIpc.consistent lg ->
    run evs lg = Some lg' ->
    LogIpc.consistent lg' /\
    LogIpc.accepted lg' = (LogIpc.accepted lg ++ LogIpc.arrivals evs)%list /\
    (LogIpc.isLoggerCreated lg' = false ->
     LogIpc.isLoggerCreated lg = false /\
     LogIpc.logger_channel lg' = LogIpc.logger_channel lg).
Proof.
  induction evs as [|ev evs IH]; intros lg lg' Hc Hrun.
  - cbn in Hrun. inversion Hrun; subst. cbn. rewrite app_nil_r. auto.
  - unfold run in Hrun. cbn [LogIpc.logger_run] in Hrun.
    destruct (LogIpc.logger_step file ev lg) as [lg1|] eqn:E; [|discriminate].
    destruct (step_accepted ev lg lg1 Hc E) as (Hc1 & Ha1 & Hn1).
    destruct (IH lg1 lg' Hc1 Hrun) as (Hc' & Ha' & Hn').
    refine (conj Hc' (conj _ _)).
    + rewrite Ha', Ha1, <- app_assoc. f_equal.
      change (ev :: evs) with ([ev] ++ evs)%list.
      unfold LogIpc.arrivals. now rewrite flat_map_app.
    + intros Hf. destruct (Hn' Hf) as [Hf1 Hch]. destruct (Hn1 Hf1) as [Hf0 Hch0].
      split; [exact Hf0 | congruence].
Qed.

(** Once the flag is set, nothing unsets it and nothing enters the buffer. *)
Lemma run_created (evs : list LogIpc.LoggerEvent) :
  forall lg lg' : Logger,
    LogIpc.isLoggerCreated lg = true ->
    run evs lg = Some lg' ->
    LogIpc.isLoggerCreated lg' = true /\ LogIpc.buffer lg' = LogIpc.buffer lg.
Proof.
  induction evs as [|ev evs IH]; intros lg lg' Hf Hrun.
  - cbn in Hrun. inversion Hrun; subst. auto.
  - unfold run in Hrun. cbn [LogIpc.logger_run] in Hrun.
    destruct (LogIpc.logger_step file ev lg) as [lg1|] eqn:E; [|discriminate].
    assert (H1 : LogIpc.isLoggerCreated lg1 = true /\ LogIpc.buffer lg1 = LogIpc.buffer lg).
    { destruct lg as [flag held channel c]. cbn in Hf. subst flag.
      destruct ev; cbn in E.
      - inversion E; subst; auto.
      - destruct c; inversion E; subst; auto.
      - destruct c; inversion E; subst; auto. }
    destruct H1 as [Hf1 Hb1]. destruct (IH lg1 lg' Hf1 Hrun) as [Hf' Hb'].
    split; [exact Hf' | congruence].
Qed.

(** C8.  The messages logged before the [createLogger] call completes are
    held in the buffer in arrival order; its completion hands the whole
    buffer to the remote [log] operation in one call, and from then on every
    message goes out directly in a call of its own.  Along any schedule
    the messages delivered, followed by those still held, are the messages
    logged, in arrival order; and once the switch is made the flag stays set
    and the buffer takes no further message. *)
Theorem buffer_flushed_once_in_order :
  (forall (channel : IChannel) (before after : list (LogLevel * string)),
      run (LogIpc.logs before ++ LogIpc.CreateLoggerResolves :: LogIpc.logs after)%list
        (create channel) =
      Some {| LogIpc.isLoggerCreated := true;
              LogIpc.buffer := before;
              LogIpc.logger_channel :=
                (channel ++
                 LogIpc.call_createLogger file loggerOptions ::
                 call_log before ::
                 map (fun m => call_log [m]) after)%list;
              LogIpc.creation := LogIpc.Resolved |}) /\
  (forall (channel : IChannel) (evs : list LogIpc.LoggerEvent) (lg : Logger),
      run evs (create channel) = Some lg ->
      LogIpc.accepted lg = (LogIpc.delivered channel ++ LogIpc.arrivals evs)%list /\
      (LogIpc.isLoggerCreated lg = true <-> LogIpc.creation lg = LogIpc.Resolved) /\
      (LogIpc.isLoggerCreated lg = true ->
       LogIpc.delivered (LogIpc.logger_channel lg) =
       (LogIpc.delivered channel ++ LogIpc.arrivals evs)%list) /\
      (LogIpc.isLoggerCreated lg = false ->
       LogIpc.buffer lg = LogIpc.arrivals evs /\
       LogIpc.logger_channel lg =
       (channel ++ [LogIpc.call_createLogger file loggerOptions])%list)) /\
  (forall (evs : list LogIpc.LoggerEvent) (lg lg' : Logger),
      LogIpc.isLoggerCreated lg = true ->
      run evs lg = Some lg' ->
      LogIpc.isLoggerCreated lg' = true /\ LogIpc.buffer lg' = LogIpc.buffer lg).
Proof.
  split; [|split].
  - intros channel before after.
    rewrite run_app. unfold create, LogIpc.create. rewrite run_buffering.
    unfold run at 1. cbn [LogIpc.logger_run LogIpc.logger_step LogIpc.creation
                          LogIpc.onCreated LogIpc.doLog LogIpc.channel_call
                          LogIpc.isLoggerCreated LogIpc.buffer LogIpc.logger_channel app].
    fold run. rewrite run_forwarding. unfold LogIpc.channel_call.
    rewrite <- !app_assoc. reflexivity.
  - intros channel evs lg Hrun.
    assert (Hc : LogIpc.consistent (create channel)) by (split; discriminate).
    destruct (run_accepted evs _ _ Hc Hrun) as (Hc' & Ha & Hn).
    assert (Ha0 : LogIpc.accepted (create channel) = LogIpc.delivered channel).
    { unfold LogIpc.accepted, create, LogIpc.create, LogIpc.channel_call.
      cbn [LogIpc.isLoggerCreated LogIpc.buffer LogIpc.logger_channel].
      rewrite delivered_app. cbn. now rewrite !app_nil_r. }
    rewrite Ha0 in Ha. refine (conj Ha (conj Hc' (conj _ _))).
    + intros Hf. unfold LogIpc.accepted in Ha. rewrite Hf, app_nil_r in Ha. exact Ha.
    + intros Hf. destruct (Hn Hf) as [_ Hch]. split; [|exact Hch].
      unfold LogIpc.accepted in Ha. rewrite Hf, Hch in Ha.
      unfold create, LogIpc.create, LogIpc.channel_call in Ha.
      cbn [LogIpc.logger_channel] in Ha. rewrite delivered_app in Ha. cbn in Ha.
      rewrite app_nil_r in Ha. now apply app_inv_head in Ha.
  - apply run_created.
Qed.

(** C10.  When the [createLogger] call completes, one [log] call carrying
    the buffer is issued whatever the buffer holds: for a logger that
    nothing was logged to, a [log] call with an empty list of messages. *)
Theorem creation_flushes_unconditionally :
  (forall lg : Logger,
      LogIpc.creation lg = LogIpc.Pending ->
      exists lg',
        step LogIpc.CreateLoggerResolves lg = Some lg' /\
        LogIpc.logger_channel lg' =
        (LogIpc.logger_channel lg ++ [call_log (LogIpc.buffer lg)])%list /\
        LogIpc.log_calls (LogIpc.logger_channel lg') =
        (LogIpc.log_calls (LogIpc.logger_channel lg) ++ [call_log (LogIpc.buffer lg)])%list /\
        LogIpc.isLoggerCreated lg' = true) /\
  (forall channel : IChannel,
      run [LogIpc.CreateLoggerResolves] (create channel) =
      Some {| LogIpc.isLoggerCreated := true;
              LogIpc.buffer := [];
              LogIpc.logger_channel :=
                (channel ++ [LogIpc.call_createLogger file loggerOptions; call_log []])%list;
              LogIpc.creation := LogIpc.Resolved |}).
Proof.
  split.
  - intros [flag held channel c] Hp. cbn in Hp. subst c.
    eexists. split; [reflexivity|].
    cbn [LogIpc.onCreated LogIpc.doLog LogIpc.channel_call LogIpc.isLoggerCreated
         LogIpc.buffer LogIpc.logger_channel].
    repeat split. unfold LogIpc.log_calls, LogIpc.channel_call.
    rewrite filter_app. reflexivity.
  - intros channel. unfold run, create, LogIpc.create, LogIpc.channel_call.
    cbn [LogIpc.logger_run LogIpc.logger_step LogIpc.creation LogIpc.onCreated
         LogIpc.doLog LogIpc.channel_call LogIpc.isLoggerCreated LogIpc.buffer
         LogIpc.logger_channel].
    unfold LogIpc.channel_call. now rewrite <- app_assoc.
Qed.

End LoggerFacts.

Lemma buffer_flushed_once_in_order_witness :
  exists lg,
    LogIpc.logger_run (ILoggerOptions := unit) (LoggerInfo := unit) "main.log"
      [LogIpc.Log LogLevel.Info "one"; LogIpc.CreateLoggerResolves;
       LogIpc.Log LogLevel.Error "two"]
      (LogIpc.create "main.log" None []) = Some lg /\
    LogIpc.delivered (LogIpc.logger_channel lg) =
    [(LogLevel.Info, "one"); (LogLevel.Error, "two")].
Proof.
  eexists. split; [reflexivity|].
  exact (proj1 (proj2 (proj2 (proj1 (proj2
           (buffer_flushed_once_in_order (ILoggerOptions := unit) (LoggerInfo := unit)
              "main.log" None))
           []
           [LogIpc.Log LogLevel.Info "one"; LogIpc.CreateLoggerResolves;
            LogIpc.Log LogLevel.Error "two"]
           _ eq_refl))) eq_refl).
Defined.

Lemma creation_flushes_unconditionally_witness :
  exists lg',
    LogIpc.logger_step (ILoggerOptions := unit) (LoggerInfo := unit) "main.log"
      LogIpc.CreateLoggerResolves (LogIpc.create "main.log" None []) = Some lg' /\
    LogIpc.logger_channel lg' =
    [LogIpc.call_createLogger "main.log" None; LogIpc.call_log "main.log" []].
Proof.
  destruct (proj1 (creation_flushes_unconditionally (ILoggerOptions := unit)
                     (LoggerInfo := unit) "main.log" None)
              (LogIpc.create "main.log" None []) eq_refl) as (lg' & Hstep & Hch & _).
  exists lg'. split; [exact Hstep | exact Hch].
Defined.

(** ** The follower log service *)

Section FollowerLogServiceFacts.
Context {URI ILoggerOptions LoggerInfo ILogService : Type}.
Variable logService_setLevel : LogLevel -> ILogService -> ILogService.
Variable super_setLevel : LogLevel -> ILogService -> ILogService.

Let Follower :=
  LogIpc.FollowerLogService
    (URI := URI) (ILoggerOptions := ILoggerOptions) (LoggerInfo := LoggerInfo)
    (ILogService := ILogService).
Let setLevel : LogLevel -> Follower -> Follower := LogIpc.setLevel super_setLevel.
Let onDidChangeLogLevel : LogLevel -> Follower -> Follower :=
  LogIpc.follower_onDidChangeLogLevel logService_setLevel.
Let follow_all : list LogIpc.FollowerEvent -> Follower -> Follower :=
  LogIpc.follow_all logService_setLevel super_setLevel.
Let wrapped_after := LogIpc.wrapped_after logService_setLevel super_setLevel.

Lemma parent_calls_app (a b : list (LogIpc.Effect (URI := URI)
                                      (ILoggerOptions := ILoggerOptions)
                                      (LoggerInfo := LoggerInfo))) :
  LogIpc.parent_calls (a ++ b)%list = (LogIpc.parent_calls a ++ LogIpc.parent_calls b)%list.
Proof. apply flat_map_app. Qed.

Lemma follow_all_effect (evs : list LogIpc.FollowerEvent) :
  forall f : Follower,
    LogIpc.logService (follow_all evs f) = wrapped_after evs (LogIpc.logService f) /\
    LogIpc.parent_calls (LogIpc.effects (follow_all evs f)) =
    (LogIpc.parent_calls (LogIpc.effects f) ++
     map (fun level => LogIpc.call_setLevel level None) (LogIpc.local_levels evs))%list.
Proof.
  unfold follow_all, wrapped_after, LogIpc.follow_all, LogIpc.wrapped_after.
  induction evs as [|ev evs IH]; intros f.
  - cbn. now rewrite app_nil_r.
  - cbn [fold_left].
    destruct (IH (LogIpc.follow logService_setLevel super_setLevel ev f)) as [H1 H2].
    rewrite H1, H2. clear IH H1 H2.
    destruct ev as [level|level];
      cbn [LogIpc.follow LogIpc.setLevel LogIpc.follower_onDidChangeLogLevel
           LogIpc.logService LogIpc.effects LogIpc.local_levels flat_map map app
           LogIpc.LogLevelChannelClient_setLevel];
      rewrite ?parent_calls_app; cbn [LogIpc.parent_calls flat_map app];
      rewrite ?app_nil_r, <- ?app_assoc; split; reflexivity.
Qed.

(** C9.  A call of [setLevel] first hands the level to the log service the
    follower wraps, through [setLevel] of its superclass, and then sends it
    to the parent in one [setLevel] call without a resource; a level change
    announced by the parent is applied to the wrapped log service and sends
    nothing.  So over any sequence of both, the parent has been called
    exactly with the levels set here, in order. *)
Theorem follower_sets_then_notifies :
  (forall (level : LogLevel) (f : Follower),
      setLevel level f =
      {| LogIpc.logService := super_setLevel level (LogIpc.logService f);
         LogIpc.effects :=
           (LogIpc.effects f ++
            [LogIpc.SuperSetLevel level;
             LogIpc.ParentCall (LogIpc.call_setLevel level None)])%list |}) /\
  (forall (level : LogLevel) (f : Follower),
      onDidChangeLogLevel level f =
      {| LogIpc.logService := logService_setLevel level (LogIpc.logService f);
         LogIpc.effects := (LogIpc.effects f ++ [LogIpc.LogServiceSetLevel level])%list |}) /\
  (forall (evs : list LogIpc.FollowerEvent) (f : Follower),
      LogIpc.logService (follow_all evs f) = wrapped_after evs (LogIpc.logService f) /\
      LogIpc.parent_calls (LogIpc.effects (follow_all evs f)) =
      (LogIpc.parent_calls (LogIpc.effects f) ++
       map (fun level => LogIpc.call_setLevel level None) (LogIpc.local_levels evs))%list).
Proof.
  split; [|split].
  - intros level f. unfold setLevel, LogIpc.setLevel, LogIpc.LogLevelChannelClient_setLevel.
    cbn [LogIpc.logService LogIpc.effects]. now rewrite <- app_assoc.
  - reflexivity.
  - intros evs f. apply follow_all_effect.
Qed.

End FollowerLogServiceFacts.

(** * Further properties of the file logger *)

Lemma strlen_append (a b : string) : strlen (a ++ b) = strlen a + strlen b.
Proof. unfold strlen. rewrite length_append. lia. Qed.

Lemma append_inv_head (a b c : string) : a ++ b = a ++ c -> b = c.
Proof.
  induction a as [|x a IH]; cbn; intros H; [exact H|].
  apply IH. now inversion H.
Qed.

Lemma append_inv_tail (a b : string) (x : ascii) :
  a ++ String x "" = b ++ String x "" -> a = b.
Proof.
  revert b. induction a as [|y a IH]; intros [|z b] H; cbn in H.
  - reflexivity.
  - inversion H as [[Hx Hb]]. destruct b; discriminate Hb.
  - inversion H as [[Hx Ha]]. destruct a; discriminate Ha.
  - inversion H as [[Hy Hab]]. now rewrite (IH b Hab).
Qed.

Section FileLoggerTasks.
Context {URI FS : Type} {resources : IResources URI} {files : IFileService URI FS}.
Variable ByteSize_MB : N.
Variable resource : URI.
Variable donotUseFormatters : bool.

Let State := FileLogger.State (FS := FS).
Let logTask := FileLogger.logTask ByteSize_MB resource donotUseFormatters.
Let appended := FileLogger.appended donotUseFormatters.
Let MAX_FILE_SIZE := FileLogger.MAX_FILE_SIZE ByteSize_MB.
Let slot_of (index : N) : N := if 5 <? index then 1 else index.

(** How a task settles, by the ways it can go. *)
Lemma logTask_cases (p : Thrown + unit) (now : Date) (level : LogLevel) (message : string)
    (st : State) :
  let index := FileLogger.backupIndex st in
  (exists error, p = inl error /\ logTask p now level message st = (inl error, st)) \/
  (exists pre st1,
      strlen pre <= MAX_FILE_SIZE /\
      (FileLogger.backupIndex st1 = index \/
       FileLogger.backupIndex st1 = slot_of index + 1) /\
      logTask p now level message st =
      FileLogger.onFileService (writeFile resource (pre ++ appended now level message)) st1) \/
  (exists error fs,
      logTask p now level message st =
      (inl error,
       {| FileLogger.fileService := fs; FileLogger.backupIndex := slot_of index + 1 |})).
Proof.
  intros index. destruct p as [error|[]].
  { left. exists error. split; reflexivity. }
  right.
  destruct (readFile resource (FileLogger.fileService st)) as [[error|content] fs] eqn:Hread.
  - left. exists "", (FileLogger.after_read st fs).
    split; [apply N.le_0_l|]. split; [left; reflexivity|].
    unfold logTask. now rewrite (logTask_read_failed _ _ _ _ _ _ _ error fs Hread).
  - destruct (N.le_gt_cases (strlen content) MAX_FILE_SIZE) as [Hle|Hgt].
    + left. exists content, (FileLogger.after_read st fs).
      split; [exact Hle|]. split; [left; reflexivity|].
      unfold logTask. now rewrite (logTask_appends _ _ _ _ _ _ _ content fs Hread Hle).
    + unfold logTask. rewrite (logTask_rotates _ _ _ _ _ _ _ content fs Hread Hgt).
      unfold await, FileLogger.getBackupResource, FileLogger.after_read.
      cbn [FileLogger.fileService FileLogger.backupIndex].
      fold index. fold (slot_of index).
      unfold FileLogger.onFileService.
      cbn [FileLogger.fileService FileLogger.backupIndex].
      destruct (writeFile _ content fs) as [[error|[]] fs2].
      * right. exists error, fs2. reflexivity.
      * left. exists "", {| FileLogger.fileService := fs2;
                            FileLogger.backupIndex := slot_of index + 1 |}.
        split; [apply N.le_0_l|]. split; [right; reflexivity|]. reflexivity.
Qed.

Lemma slot_of_range (index : N) :
  1 <= index <= 6 -> 1 <= slot_of index <= 5.
Proof.
  intros H. unfold slot_of. destruct (5 <? index) eqn:E; [lia|].
  apply N.ltb_ge in E. lia.
Qed.

Lemma onFileService_index {A : Type} (op : Async FS A) (st : State) :
  FileLogger.backupIndex (snd (FileLogger.onFileService op st)) = FileLogger.backupIndex st.
Proof.
  unfold FileLogger.onFileService. now destruct (op (FileLogger.fileService st)).
Qed.

Lemma logTask_index (p : Thrown + unit) (now : Date) (level : LogLevel) (message : string)
    (st : State) :
  1 <= FileLogger.backupIndex st <= 6 ->
  let index' := FileLogger.backupIndex (snd (logTask p now level message st)) in
  1 <= index' <= 6 /\
  (index' = FileLogger.backupIndex st \/ index' = slot_of (FileLogger.backupIndex st) + 1).
Proof.
  intros H. pose proof (slot_of_range _ H) as Hslot.
  destruct (logTask_cases p now level message st)
    as [(error & _ & E)|[(pre & st1 & _ & Hidx & E)|(error & fs & E)]];
    cbv zeta; rewrite E.
  - cbn [snd]. split; [exact H | now left].
  - rewrite onFileService_index. destruct Hidx as [-> | ->]; split; auto; lia.
  - cbn [snd FileLogger.backupIndex]. split; [lia | now right].
Qed.

Lemma run_index (evs : list FileLogger.Event) :
  forall lg lg' : FileLogger.Logger (FS := FS),
    1 <= FileLogger.backupIndex (FileLogger.state lg) <= 6 ->
    FileLogger.run ByteSize_MB resource donotUseFormatters evs lg = Some lg' ->
    1 <= FileLogger.backupIndex (FileLogger.state lg') <= 6.
Proof.
  induction evs as [|ev evs IH]; intros lg lg' H Hrun; cbn [FileLogger.run] in Hrun.
  - now inversion Hrun; subst.
  - destruct (FileLogger.step ByteSize_MB resource donotUseFormatters ev lg)
      as [lg1|] eqn:E; [|discriminate].
    apply (IH lg1 lg'); [|exact Hrun]. clear IH Hrun.
    destruct ev as [level message| |now]; cbn [FileLogger.step] in E.
    + inversion E; subst. exact H.
    + destruct (FileLogger.initializePromise lg); [discriminate|].
      destruct (FileLogger.initialize resource _) as [r fs].
      inversion E; subst. exact H.
    + destruct (FileLogger.initializePromise lg) as [p|]; [|discriminate].
      destruct (FileLogger.queue lg) as [|[level message] rest]; [discriminate|].
      pose proof (logTask_index p now level message (FileLogger.state lg) H) as [Hr _].
      unfold logTask in Hr.
      destruct (FileLogger.logTask _ _ _ p now level message (FileLogger.state lg))
        as [r st1].
      inversion E; subst. exact Hr.
Qed.

(** X1.  The backup index stays within 1..6: a task leaves it as it is or
    moves it to the slot it used plus one, and so along any schedule of a
    new logger, over any file service, the index is within 1..6. *)
Theorem backupIndex_stays_in_range :
  (forall (p : Thrown + unit) (now : Date) (level : LogLevel) (message : string)
          (st : State),
      1 <= FileLogger.backupIndex st <= 6 ->
      let index' := FileLogger.backupIndex (snd (logTask p now level message st)) in
      1 <= index' <= 6 /\
      (index' = FileLogger.backupIndex st \/
       index' = (if 5 <? FileLogger.backupIndex st then 1 else FileLogger.backupIndex st) + 1)) /\
  (forall (evs : list FileLogger.Event) (fs : FS) (lg : FileLogger.Logger),
      FileLogger.run ByteSize_MB resource donotUseFormatters evs (FileLogger.create fs) =
      Some lg ->
      1 <= FileLogger.backupIndex (FileLogger.state lg) <= 6).
Proof.
  split.
  - intros p now level message st H. exact (logTask_index p now level message st H).
  - intros evs fs lg Hrun.
    apply (run_index evs (FileLogger.create fs) lg); [|exact Hrun].
    cbn [FileLogger.create FileLogger.state FileLogger.backupIndex]. lia.
Qed.

(** X2.  A write that fails rejects the task with the error of the write.
    When the write of the backup fails, the resource is not written at all
    and the slot is used up all the same; when the write of the resource
    fails after a rotation, the backup has been written already. *)
Theorem write_failures_reject_the_task :
  forall (now : Date) (level : LogLevel) (message : string) (st : State)
         (content : string) (fs : FS),
    readFile resource (FileLogger.fileService st) = (inr content, fs) ->
    let slot := slot_of (FileLogger.backupIndex st) in
    let backup := FileLogger.backupResource resource slot in
    (MAX_FILE_SIZE < strlen content ->
     forall (error : Thrown) (fs2 : FS),
       writeFile backup content fs = (inl error, fs2) ->
       logTask (inr tt) now level message st =
       (inl error, {| FileLogger.fileService := fs2; FileLogger.backupIndex := slot + 1 |})) /\
    (MAX_FILE_SIZE < strlen content ->
     forall (error : Thrown) (fs2 fs3 : FS),
       writeFile backup content fs = (inr tt, fs2) ->
       writeFile resource (appended now level message) fs2 = (inl error, fs3) ->
       logTask (inr tt) now level message st =
       (inl error, {| FileLogger.fileService := fs3; FileLogger.backupIndex := slot + 1 |})) /\
    (strlen content <= MAX_FILE_SIZE ->
     forall (error : Thrown) (fs2 : FS),
       writeFile resource (content ++ appended now level message) fs = (inl error, fs2) ->
       logTask (inr tt) now level message st =
       (inl error, FileLogger.after_read st fs2)).
Proof.
  intros now level message st content fs Hread slot backup.
  unfold appended. split; [|split].
  - intros Hgt error fs2 Hw. unfold logTask.
    rewrite (logTask_rotates _ _ _ _ _ _ _ content fs Hread Hgt).
    unfold await, FileLogger.getBackupResource, FileLogger.after_read,
      FileLogger.onFileService.
    cbn [FileLogger.fileService FileLogger.backupIndex].
    fold (slot_of (FileLogger.backupIndex st)). fold slot.
    fold (FileLogger.backupResource resource slot). fold backup.
    now rewrite Hw.
  - intros Hgt error fs2 fs3 Hw1 Hw2. unfold logTask.
    rewrite (logTask_rotates _ _ _ _ _ _ _ content fs Hread Hgt).
    unfold await, FileLogger.getBackupResource, FileLogger.after_read,
      FileLogger.onFileService.
    cbn [FileLogger.fileService FileLogger.backupIndex].
    fold (slot_of (FileLogger.backupIndex st)). fold slot.
    fold (FileLogger.backupResource resource slot). fold backup.
    rewrite Hw1. cbn [FileLogger.fileService FileLogger.backupIndex]. now rewrite Hw2.
  - intros Hle error fs2 Hw. unfold logTask.
    rewrite (logTask_appends _ _ _ _ _ _ _ content fs Hread Hle).
    unfold FileLogger.onFileService, FileLogger.after_read.
    cbn [FileLogger.fileService FileLogger.backupIndex]. now rewrite Hw.
Qed.

(** What a successful task has written to the resource last: the entry,
    after at most a ceiling of earlier content. *)
Lemma logTask_written (now : Date) (level : LogLevel) (message : string) (st st' : State) :
  logTask (inr tt) now level message st = (inr tt, st') ->
  exists pre st1,
    strlen pre <= MAX_FILE_SIZE /\
    FileLogger.onFileService (writeFile resource (pre ++ appended now level message)) st1 =
    (inr tt, st').
Proof.
  intros H.
  destruct (logTask_cases (inr tt) now level message st)
    as [(error & Hp & _)|[(pre & st1 & Hpre & _ & E)|(error & fs & E)]].
  - discriminate Hp.
  - exists pre, st1. split; [exact Hpre|]. unfold logTask in *. now rewrite <- E.
  - unfold logTask in *. rewrite E in H. discriminate H.
Qed.

(** X6.  Once the initialization has failed, whatever is submitted and
    run afterwards, every task is rejected with the error of the
    initialization and the logger and its file system stay as they were. *)
Theorem failed_initialization_stops_every_task :
  forall (evs : list FileLogger.Event) (lg lg' : FileLogger.Logger (FS := FS))
         (error : Thrown),
    FileLogger.initializePromise lg = Some (inl error) ->
    FileLogger.run ByteSize_MB resource donotUseFormatters evs lg = Some lg' ->
    FileLogger.state lg' = FileLogger.state lg /\
    FileLogger.initializePromise lg' = Some (inl error) /\
    FileLogger.outcomes lg' =
    (FileLogger.outcomes lg ++
     repeat (inl error) (List.length (FileLogger.clocks evs)))%list.
Proof.
  induction evs as [|ev evs IH]; intros lg lg' error Hp Hrun; cbn [FileLogger.run] in Hrun.
  - inversion Hrun; subst. cbn. now rewrite app_nil_r.
  - destruct (FileLogger.step ByteSize_MB resource donotUseFormatters ev lg)
      as [lg1|] eqn:E; [|discriminate].
    destruct ev as [level message| |now]; cbn [FileLogger.step] in E.
    + inversion E; subst lg1; clear E.
      destruct (IH (FileLogger.log level message lg) lg' error Hp Hrun) as (H1 & H2 & H3).
      cbn [FileLogger.clocks]. auto.
    + rewrite Hp in E. discriminate E.
    + rewrite Hp in E.
      destruct (FileLogger.queue lg) as [|[level message] rest]; [discriminate|].
      rewrite (logTask_rejected ByteSize_MB resource donotUseFormatters) in E.
      inversion E; subst lg1; clear E.
      apply IH with (error := error) in Hrun; [|reflexivity].
      destruct Hrun as (H1 & H2 & H3).
      cbn [FileLogger.state FileLogger.outcomes FileLogger.clocks List.length repeat] in *.
      refine (conj H1 (conj H2 _)). rewrite H3, <- app_assoc. reflexivity.
Qed.

End FileLoggerTasks.

Lemma backupIndex_stays_in_range_witness :
  exists lg,
    FileLogger.run 2 Sample.resource true (Sample.then_b "aaaaaaaaaaa")
      (FileLogger.create MemFS.empty) = Some lg /\
    1 <= FileLogger.backupIndex (FileLogger.state lg) <= 6.
Proof.
  eexists. split; [reflexivity|].
  exact (proj2 (backupIndex_stays_in_range 2 Sample.resource true)
           (Sample.then_b "aaaaaaaaaaa") MemFS.empty _ eq_refl).
Defined.

Lemma write_failures_reject_the_task_witness :
  FileLogger.logTask 2 Sample.resource true (inr tt) Sample.clock LogLevel.Info "b"
    {| FileLogger.fileService :=
         MemFS.deny ["logs"; "main.log_1"] (MemFS.of_list [(Sample.resource, "aaaaaaaaaaa")]);
       FileLogger.backupIndex := 1 |} =
  (inl (FileOperationError FILE_PERMISSION_DENIED),
   {| FileLogger.fileService :=
        MemFS.deny ["logs"; "main.log_1"] (MemFS.of_list [(Sample.resource, "aaaaaaaaaaa")]);
      FileLogger.backupIndex := 2 |}).
Proof.
  assert (Hread :
    readFile Sample.resource
      (MemFS.deny ["logs"; "main.log_1"] (MemFS.of_list [(Sample.resource, "aaaaaaaaaaa")])) =
    (inr "aaaaaaaaaaa",
     MemFS.deny ["logs"; "main.log_1"] (MemFS.of_list [(Sample.resource, "aaaaaaaaaaa")])))
    by reflexivity.
  apply (proj1 (write_failures_reject_the_task 2 Sample.resource true Sample.clock
                  LogLevel.Info "b"
                  {| FileLogger.fileService :=
                       MemFS.deny ["logs"; "main.log_1"]
                         (MemFS.of_list [(Sample.resource, "aaaaaaaaaaa")]);
                     FileLogger.backupIndex := 1 |}
                  "aaaaaaaaaaa" _ Hread)).
  - reflexivity.
  - reflexivity.
Defined.

Lemma failed_initialization_stops_every_task_witness :
  exists lg',
    FileLogger.run MB Sample.resource true
      [FileLogger.RunTask Sample.clock; FileLogger.Submit LogLevel.Info "y";
       FileLogger.RunTask Sample.clock]
      {| FileLogger.state :=
           {| FileLogger.fileService := MemFS.deny Sample.resource MemFS.empty;
              FileLogger.backupIndex := 1 |};
         FileLogger.initializePromise :=
           Some (inl (FileOperationError FILE_PERMISSION_DENIED));
         FileLogger.queue := [(LogLevel.Info, "x")];
         FileLogger.outcomes := [] |} = Some lg' /\
    FileLogger.outcomes lg' =
    [inl (FileOperationError FILE_PERMISSION_DENIED);
     inl (FileOperationError FILE_PERMISSION_DENIED)].
Proof.
  eexists. split; [reflexivity|].
  exact (proj2 (proj2 (failed_initialization_stops_every_task MB Sample.resource true
                         [FileLogger.RunTask Sample.clock;
                          FileLogger.Submit LogLevel.Info "y";
                          FileLogger.RunTask Sample.clock]
                         {| FileLogger.state :=
                              {| FileLogger.fileService :=
                                   MemFS.deny Sample.resource MemFS.empty;
                                 FileLogger.backupIndex := 1 |};
                            FileLogger.initializePromise :=
                              Some (inl (FileOperationError FILE_PERMISSION_DENIED));
                            FileLogger.queue := [(LogLevel.Info, "x")];
                            FileLogger.outcomes := [] |}
                         _ (FileOperationError FILE_PERMISSION_DENIED)
                         eq_refl eq_refl))).
Defined.

(** X3.  The content a successful task leaves in the resource is the entry
    it rendered, after at most a ceiling of earlier content: over any file
    service its last operation is the write of such a content, and in memory
    the resource then holds it, so its length is at most the ceiling plus the
    length of the entry. *)
Theorem written_content_is_bounded :
  (forall (URI FS : Type) (resources : IResources URI) (files : IFileService URI FS)
          (ByteSize_MB : N) (resource : URI) (donotUseFormatters : bool)
          (now : Date) (level : LogLevel) (message : string) (st st' : FileLogger.State),
      FileLogger.logTask ByteSize_MB resource donotUseFormatters (inr tt) now level message st =
      (inr tt, st') ->
      exists pre st1,
        strlen pre <= FileLogger.MAX_FILE_SIZE ByteSize_MB /\
        FileLogger.onFileService
          (writeFile resource (pre ++ FileLogger.appended donotUseFormatters now level message))
          st1 = (inr tt, st')) /\
  (forall (ByteSize_MB : N) (resource : MemFS.Path) (donotUseFormatters : bool)
          (now : Date) (level : LogLevel) (message : string)
          (st st' : FileLogger.State (FS := MemFS.t)),
      FileLogger.logTask ByteSize_MB resource donotUseFormatters (inr tt) now level message st =
      (inr tt, st') ->
      exists pre,
        strlen pre <= FileLogger.MAX_FILE_SIZE ByteSize_MB /\
        MemFS.stored (FileLogger.fileService st') resource =
        Some (pre ++ FileLogger.appended donotUseFormatters now level message) /\
        strlen (MemFS.content (FileLogger.fileService st') resource) <=
        FileLogger.MAX_FILE_SIZE ByteSize_MB +
        strlen (FileLogger.appended donotUseFormatters now level message)).
Proof.
  split.
  - intros URI FS resources files MB0 resource donot now level message st st' H.
    exact (logTask_written MB0 resource donot now level message st st' H).
  - intros MB0 resource donot now level message st st' H.
    destruct (logTask_written MB0 resource donot now level message st st' H)
      as (pre & st1 & Hpre & Hw).
    exists pre. split; [exact Hpre|].
    unfold FileLogger.onFileService in Hw. cbn [writeFile MemFS.service] in Hw.
    unfold MemFS.write in Hw.
    destruct (MemFS.denied (FileLogger.fileService st1) resource); [discriminate Hw|].
    inversion Hw; subst st'; clear Hw.
    unfold MemFS.content. cbn [FileLogger.fileService MemFS.stored].
    rewrite put_same. split; [reflexivity|]. rewrite strlen_append. lia.
Qed.

Lemma written_content_is_bounded_witness :
  exists pre,
    strlen pre <= FileLogger.MAX_FILE_SIZE 2 /\
    MemFS.stored
      (FileLogger.fileService
         (snd (FileLogger.logTask 2 Sample.resource true (inr tt) Sample.clock
                 LogLevel.Info "b"
                 {| FileLogger.fileService := MemFS.of_list [(Sample.resource, "aaaaaaaaaa")];
                    FileLogger.backupIndex := 1 |})))
      Sample.resource =
    Some (pre ++ FileLogger.appended true Sample.clock LogLevel.Info "b") /\
    strlen
      (MemFS.content
         (FileLogger.fileService
            (snd (FileLogger.logTask 2 Sample.resource true (inr tt) Sample.clock
                    LogLevel.Info "b"
                    {| FileLogger.fileService := MemFS.of_list [(Sample.resource, "aaaaaaaaaa")];
                       FileLogger.backupIndex := 1 |})))
         Sample.resource) <=
    FileLogger.MAX_FILE_SIZE 2 + strlen (FileLogger.appended true Sample.clock LogLevel.Info "b").
Proof.
  apply (proj2 written_content_is_bounded 2 Sample.resource true Sample.clock
           LogLevel.Info "b"
           {| FileLogger.fileService := MemFS.of_list [(Sample.resource, "aaaaaaaaaa")];
              FileLogger.backupIndex := 1 |}).
  reflexivity.
Defined.

Lemma put_elsewhere (r r' : MemFS.Path) (c : string) (f : MemFS.Path -> option string) :
  r' <> r -> MemFS.put r c f r' = f r'.
Proof. intros H. unfold MemFS.put. destruct (MemFS.Path_eq_dec r r'); congruence. Qed.

(** X4.  In memory, a task changes no file but the resource and the backup
    of the slot its index points to, whatever promise it awaits and however
    it settles; and it never changes which resources are refused. *)
Theorem task_touches_resource_and_backup_only :
  forall (ByteSize_MB : N) (resource : MemFS.Path) (donotUseFormatters : bool)
         (p : Thrown + unit) (now : Date) (level : LogLevel) (message : string)
         (st : FileLogger.State (FS := MemFS.t)) (other : MemFS.Path),
    other <> resource ->
    other <>
    FileLogger.backupResource resource
      (if 5 <? FileLogger.backupIndex st then 1 else FileLogger.backupIndex st) ->
    let st' :=
      snd (FileLogger.logTask ByteSize_MB resource donotUseFormatters p now level message st) in
    MemFS.stored (FileLogger.fileService st') other =
    MemFS.stored (FileLogger.fileService st) other /\
    MemFS.denied (FileLogger.fileService st') = MemFS.denied (FileLogger.fileService st).
Proof.
  intros MB0 resource donot p now level message [fs index] other Hres Hbackup.
  cbn [FileLogger.backupIndex FileLogger.fileService] in *.
  destruct p as [error|[]]; [split; reflexivity|].
  destruct (readFile resource fs) as [[error|content] fs1] eqn:Hread.
  - assert (fs1 = fs) as ->.
    { cbn [readFile MemFS.service] in Hread. unfold MemFS.read in Hread.
      destruct (MemFS.denied fs resource); [now inversion Hread|].
      destruct (MemFS.stored fs resource); now inversion Hread. }
    cbv zeta.
    rewrite (logTask_read_failed MB0 resource donot now level message
               {| FileLogger.fileService := fs; FileLogger.backupIndex := index |}
               error fs Hread).
    unfold FileLogger.onFileService, FileLogger.after_read.
    cbn [writeFile MemFS.service FileLogger.fileService FileLogger.backupIndex].
    unfold MemFS.write. destruct (MemFS.denied fs resource); cbn; [auto|].
    split; [now apply put_elsewhere | reflexivity].
  - assert (fs1 = fs) as ->.
    { cbn [readFile MemFS.service] in Hread. unfold MemFS.read in Hread.
      destruct (MemFS.denied fs resource); [now inversion Hread|].
      destruct (MemFS.stored fs resource); now inversion Hread. }
    cbv zeta.
    destruct (N.le_gt_cases (strlen content) (FileLogger.MAX_FILE_SIZE MB0)) as [Hle|Hgt].
    + rewrite (logTask_appends MB0 resource donot now level message
                 {| FileLogger.fileService := fs; FileLogger.backupIndex := index |}
                 content fs Hread Hle).
      unfold FileLogger.onFileService, FileLogger.after_read.
      cbn [writeFile MemFS.service FileLogger.fileService FileLogger.backupIndex].
      unfold MemFS.write. destruct (MemFS.denied fs resource); cbn; [auto|].
      split; [now apply put_elsewhere | reflexivity].
    + rewrite (logTask_rotates MB0 resource donot now level message
                 {| FileLogger.fileService := fs; FileLogger.backupIndex := index |}
                 content fs Hread Hgt).
      unfold await, FileLogger.getBackupResource, FileLogger.onFileService,
        FileLogger.after_read.
      cbn [writeFile MemFS.service FileLogger.fileService FileLogger.backupIndex].
      fold (FileLogger.backupResource resource (if 5 <? index then 1 else index)).
      unfold MemFS.write.
      destruct (MemFS.denied fs (FileLogger.backupResource resource _)); cbn; [auto|].
      destruct (MemFS.denied fs resource); cbn.
      * split; [now apply put_elsewhere | reflexivity].
      * split; [|reflexivity]. rewrite put_elsewhere by exact Hres.
        now apply put_elsewhere.
Qed.

Lemma task_touches_resource_and_backup_only_witness :
  MemFS.stored
    (FileLogger.fileService
       (snd (FileLogger.logTask 2 Sample.resource true (inr tt) Sample.clock
               LogLevel.Info "b"
               {| FileLogger.fileService :=
                    MemFS.of_list [(Sample.resource, "aaaaaaaaaaa");
                                   (["logs"; "other.log"], "kept")];
                  FileLogger.backupIndex := 1 |})))
    ["logs"; "other.log"] = Some "kept".
Proof.
  refine (eq_trans
            (proj1 (task_touches_resource_and_backup_only 2 Sample.resource true (inr tt)
                      Sample.clock LogLevel.Info "b"
                      {| FileLogger.fileService :=
                           MemFS.of_list [(Sample.resource, "aaaaaaaaaaa");
                                          (["logs"; "other.log"], "kept")];
                         FileLogger.backupIndex := 1 |}
                      ["logs"; "other.log"] _ _))
            eq_refl).
  - discriminate.
  - discriminate.
Defined.

(** X5.  A formatted entry, at a given clock reading, tells its level and
    its message: two entries rendered at the same reading are equal only
    when both the levels and the messages are. *)
Theorem entry_determines_level_and_message :
  forall (now : Date) (level1 level2 : LogLevel) (message1 message2 : string),
    FileLogger.appended false now level1 message1 =
    FileLogger.appended false now level2 message2 ->
    level1 = level2 /\ message1 = message2.
Proof.
  intros now level1 level2 message1 message2 H.
  unfold FileLogger.appended in H.
  apply append_inv_head in H. apply append_inv_head in H.
  destruct level1, level2; try (cbn in H; discriminate H);
    (split; [reflexivity|]);
    apply append_inv_head in H; apply append_inv_head in H;
    unfold LF in H; exact (append_inv_tail _ _ _ H).
Qed.

Lemma entry_determines_level_and_message_witness :
  LogLevel.Warning = LogLevel.Warning /\ "disk is full" = "disk is full".
Proof.
  exact (entry_determines_level_and_message Sample.clock LogLevel.Warning LogLevel.Warning
           "disk is full" "disk is full" eq_refl).
Defined.

(** * Further properties of the log IPC module *)

Section LogLevelChannelFacts.
Context {URI ILoggerOptions LoggerInfo ILogService ILoggerService : Type}.
Variable URI_revive : URI -> URI.
Variable logService_setLevel : LogLevel -> ILogService -> ILogService.
Variable loggerService_setLogLevel : URI -> LogLevel -> ILoggerService -> ILoggerService.

Let Channel :=
  LogIpc.LogLevelChannel (ILogService := ILogService) (ILoggerService := ILoggerService).
Let Call := LogIpc.Call (URI := URI) (ILoggerOptions := ILoggerOptions) (LoggerInfo := LoggerInfo).
Let receive : Call -> Async Channel unit :=
  LogIpc.LogLevelChannel_receive URI_revive logService_setLevel loggerService_setLogLevel.

(** X8.  What a [LogLevelChannelClient] sends, a [LogLevelChannel]
    understands: the call of [setLevel(level, resource)] is never rejected
    and sets the level where the resource says, and the event the client
    listens to is one the channel serves - while of the three events a
    [LoggerChannelClient] listens to it serves the first only. *)
Theorem LogLevelChannelClient_is_understood :
  (forall (level : LogLevel) (resource : option URI) (ch : Channel),
      receive (LogIpc.LogLevelChannelClient_setLevel level resource) ch =
      (inr tt,
       match resource with
       | Some r =>
           {| LogIpc.channel_logService := LogIpc.channel_logService ch;
              LogIpc.channel_loggerService :=
                loggerService_setLogLevel (URI_revive r) level
                  (LogIpc.channel_loggerService ch) |}
       | None =>
           {| LogIpc.channel_logService :=
                logService_setLevel level (LogIpc.channel_logService ch);
              LogIpc.channel_loggerService := LogIpc.channel_loggerService ch |}
       end)) /\
  LogIpc.LogLevelChannel_listen LogIpc.LogLevelChannelClient_onDidChangeLogLevel =
  inr LogIpc.onDidChangeLogLevel_event /\
  filter (fun event => match LogIpc.LogLevelChannel_listen event with
                       | inr _ => true
                       | inl _ => false
                       end)
         LogIpc.LoggerChannelClient_listens = ["onDidChangeLogLevel"].
Proof.
  split; [|split; reflexivity].
  intros level [r|] ch; reflexivity.
Qed.

End LogLevelChannelFacts.

Section LoggerRejected.
Context {URI ILoggerOptions LoggerInfo : Type}.
Variable file : URI.
Variable loggerOptions : option ILoggerOptions.

Let Logger :=
  LogIpc.Logger (URI := URI) (ILoggerOptions := ILoggerOptions) (LoggerInfo := LoggerInfo).

(** A rejected creation stays rejected. *)
Lemma run_rejected (evs : list LogIpc.LoggerEvent) :
  forall lg lg' : Logger,
    LogIpc.logger_run file evs lg = Some lg' ->
    LogIpc.creation lg = LogIpc.Rejected \/ In LogIpc.CreateLoggerRejects evs ->
    LogIpc.creation lg' = LogIpc.Rejected.
Proof.
  induction evs as [|ev evs IH]; intros lg lg' Hrun H; cbn [LogIpc.logger_run] in Hrun.
  - inversion Hrun; subst. destruct H as [H|[]]. exact H.
  - destruct (LogIpc.logger_step file ev lg) as [lg1|] eqn:E; [|discriminate].
    apply (IH lg1 lg' Hrun). clear IH Hrun.
    destruct lg as [flag held channel c].
    destruct ev as [level message| |]; cbn in E.
    + destruct H as [H|[H|H]]; [|discriminate H|now right].
      left. cbn in H. subst c. destruct flag; inversion E; reflexivity.
    + destruct c; try discriminate E.
      destruct H as [H|[H|H]]; [discriminate H|discriminate H|now right].
    + destruct c; try discriminate E. inversion E. now left.
Qed.

(** X10.  When the [createLogger] call is rejected, the proxy logger never
    hands a message to the channel: along any schedule in which the
    rejection occurs, the only call it has issued is [createLogger], the flag
    is unset, and every message logged, before or after, sits in the buffer
    in arrival order. *)
Theorem rejected_creation_delivers_nothing :
  forall (channel : LogIpc.IChannel) (evs : list LogIpc.LoggerEvent) (lg : Logger),
    LogIpc.logger_run file evs (LogIpc.create file loggerOptions channel) = Some lg ->
    In LogIpc.CreateLoggerRejects evs ->
    LogIpc.isLoggerCreated lg = false /\
    LogIpc.logger_channel lg =
    (channel ++ [LogIpc.call_createLogger file loggerOptions])%list /\
    LogIpc.buffer lg = LogIpc.arrivals evs.
Proof.
  intros channel evs lg Hrun Hin.
  assert (Hc : LogIpc.consistent (LogIpc.create file loggerOptions channel))
    by (split; discriminate).
  destruct (run_accepted file evs _ _ Hc Hrun) as (Hc' & Ha & Hn).
  pose proof (run_rejected evs _ _ Hrun (or_intror Hin)) as Hrej.
  assert (Hf : LogIpc.isLoggerCreated lg = false).
  { destruct (LogIpc.isLoggerCreated lg) eqn:E; [|reflexivity].
    destruct Hc' as [Hc' _]. rewrite E, Hrej in Hc'. discriminate (Hc' eq_refl). }
  destruct (Hn Hf) as [_ Hch]. refine (conj Hf (conj Hch _)).
  unfold LogIpc.accepted in Ha. rewrite Hf, Hch in Ha.
  cbn [LogIpc.create LogIpc.isLoggerCreated LogIpc.buffer LogIpc.logger_channel] in Ha.
  rewrite app_nil_r in Ha. now apply app_inv_head in Ha.
Qed.

End LoggerRejected.

Lemma rejected_creation_delivers_nothing_witness :
  exists lg,
    LogIpc.logger_run (ILoggerOptions := unit) (LoggerInfo := unit) "main.log"
      [LogIpc.Log LogLevel.Info "one"; LogIpc.CreateLoggerRejects;
       LogIpc.Log LogLevel.Error "two"]
      (LogIpc.create "main.log" None []) = Some lg /\
    LogIpc.logger_channel lg = [LogIpc.call_createLogger "main.log" None] /\
    LogIpc.buffer lg = [(LogLevel.Info, "one"); (LogLevel.Error, "two")].
Proof.
  eexists. split; [reflexivity|].
  exact (proj2 (rejected_creation_delivers_nothing (ILoggerOptions := unit)
                  (LoggerInfo := unit) "main.log" None []
                  [LogIpc.Log LogLevel.Info "one"; LogIpc.CreateLoggerRejects;
                   LogIpc.Log LogLevel.Error "two"]
                  _ eq_refl (or_intror (or_introl eq_refl)))).
Defined.
